(** * error-registry: a shallow embedding of [createErrorRegistry]

    The development follows [errorRegistry.ts], in its version with
    [createErrorFromCreator] and variadic handler context.  One call of
    [createErrorRegistry] yields a closure over two constants ([seekers],
    [baseError]) and two mutable [Map]s ([errorRegistry], [handlerRegistry]).
    The constants are the record [Opts]; the maps are the record [Store],
    threaded through a small state-and-exception monad together with the
    world [W] that user handlers act on.

    The first part reads data and errors through JSON-like values, on which no
    property read and no conversion to a string can throw.  [Module Host]
    embeds [create] and [handleError] once more over every value the host can
    pass in; the statements about what these two functions return or throw in
    all cases are made there. *)

From stdpp Require Import gmap strings list pretty.

Open Scope string_scope.
Open Scope list_scope.

Reserved Notation "x <- m ;; k"
  (at level 100, m at next level, right associativity).
Reserved Notation "m ;;; k"
  (at level 100, right associativity).

(** ** Host values *)

(** The values a data record or an error object carries under a property.
    Numbers are the integer-valued ones; [VObject] is a plain object, whose
    conversion to a string is the fixed text of [Object.prototype.toString]. *)
Inductive JsValue : Type :=
  | VUndefined
  | VNull
  | VBoolean (b : bool)
  | VNumber (n : Z)
  | VString (s : string)
  | VObject.

(** [value != null]: only [null] and [undefined] are skipped. *)
Definition not_nullish (value : JsValue) : bool :=
  match value with
  | VUndefined | VNull => false
  | _ => true
  end.

(** [String(value)]. *)
Definition String (value : JsValue) : string :=
  match value with
  | VUndefined => "undefined"
  | VNull => "null"
  | VBoolean true => "true"
  | VBoolean false => "false"
  | VNumber n => pretty n
  | VString s => s
  | VObject => "[object Object]"
  end.

(** A registration key, [string | number], and [String(key)]. *)
Inductive Key : Type :=
  | KeyString (s : string)
  | KeyNumber (n : Z).

Definition String_key (key : Key) : string :=
  match key with
  | KeyString s => s
  | KeyNumber n => pretty n
  end.

(** [TErrorData]: the argument of [createError].  It may be [null] or
    [undefined]; otherwise it is read as a [Record<string, unknown>]. *)
Inductive ErrorData : Type :=
  | DataUndefined
  | DataNull
  | DataRecord (fields : gmap string JsValue).

(** [dataRecord?.[seeker]]: optional chaining gives [undefined] on a nullish
    record, and a missing property reads as [undefined]. *)
Definition data_get (data : ErrorData) (seeker : string) : JsValue :=
  match data with
  | DataRecord fields => default VUndefined (fields !! seeker)
  | _ => VUndefined
  end.

(** [TError]: an error object, seen through what the registry reads of it:
    the properties reachable by [error[seeker]] and [error.constructor.name]
    ([None] when the constructor or its name is undefined). *)
Record JsError : Type := mkError {
  constructorName : option string;
  properties : gmap string JsValue;
}.

Definition error_get (error : JsError) (seeker : string) : JsValue :=
  default VUndefined (properties error !! seeker).

(** [new Error(message)] of the host: constructor name ["Error"], the
    message as given and the prototype's [name]. *)
Definition new_Error (message : string) : JsError :=
  {| constructorName := Some "Error";
     properties := <["message" := VString message]> {["name" := VString "Error"]} |}.

Definition message_of (error : JsError) : JsValue := error_get error "message".

(** What a [throw] carries. *)
Inductive Thrown : Type :=
  | ThrownError (e : JsError)
  | ThrownValue (v : JsValue).

(** The completion of a call: a normal return or a throw. *)
Inductive Completion (A : Type) : Type :=
  | Normal (a : A)
  | Throw (t : Thrown).
Arguments Normal {A} a.
Arguments Throw {A} t.

(** ** Error creators *)

(** The functions a caller can hand over as creator.  Only arrow functions
    lack a [prototype] property among these. *)
Inductive FunctionKind : Type :=
  | ArrowFunction
  | ClassConstructor
  | PlainFunction.

(** ['prototype' in creator]. *)
Definition has_prototype (kind : FunctionKind) : bool :=
  match kind with
  | ArrowFunction => false
  | ClassConstructor | PlainFunction => true
  end.

(** [ErrorCreator<TErrorData, TError>]: a function value, with what the host
    does on [creator(data)] and on [new creator(data)]. *)
Record ErrorCreator : Type := mkCreator {
  kind : FunctionKind;
  onCall : ErrorData -> Completion JsError;
  onNew : ErrorData -> Completion JsError;
}.

(** [createErrorFromCreator].  [typeof creator === 'function'] holds of every
    [ErrorCreator]; the branch is decided by the [prototype] test. *)
Definition createErrorFromCreator (creator : ErrorCreator) (data : ErrorData)
  : Completion JsError :=
  if has_prototype (kind creator) then onNew creator data
  else onCall creator data.

Section Registry.

(** The world user handlers act on (a log, a router, a telemetry sink). *)
Context {W : Type}.

(** A handler [(error, ...ctx) => void | Promise<void>], awaited: it changes
    the world and returns, or throws (rejects). *)
Definition Handler : Type := JsError -> list JsValue -> W -> Completion () * W.

(** [Config]: every member is optional. *)
Record Config : Type := mkConfig {
  config_seekers : option (list string);
  config_baseError : option ErrorCreator;
  config_errors : option (list (string * ErrorCreator));
  config_handlers : option (list (string * Handler));
}.

(** [opts], destructured by the source into its four constants.  [errors] and
    [handlers] are the [Object.entries] of the configured objects, [None] for
    an undefined member. *)
Record Opts : Type := mkOpts {
  errors : option (list (string * ErrorCreator));
  handlers : option (list (string * Handler));
  seekers : list string;
  baseError : option ErrorCreator;
}.

(** The two [Map]s of one registry instance. *)
Record Store : Type := mkStore {
  errorRegistry : gmap string ErrorCreator;
  handlerRegistry : gmap string Handler;
}.

(** ** State and exceptions *)

Definition M (A : Type) : Type := Store * W -> Completion A * (Store * W).

Definition ret {A} (a : A) : M A := fun s => (Normal a, s).

Definition bind {A B} (m : M A) (f : A -> M B) : M B :=
  fun s => match m s with
           | (Normal a, s') => f a s'
           | (Throw t, s') => (Throw t, s')
           end.

Notation "x <- m ;; k" := (bind m (fun x => k)).
Notation "m ;;; k" := (bind m (fun _ => k)).

(** A pure completion (a creator's) inside [M]. *)
Definition complete {A} (c : Completion A) : M A := fun s => (c, s).

(** Reading and updating the maps. *)
Definition gets {A} (f : Store -> A) : M A := fun s => (Normal (f s.1), s).

Definition modify (f : Store -> Store) : M () := fun s => (Normal (), (f s.1, s.2)).

(** [errorRegistry.get(key)] and [handlerRegistry.get(key)]. *)
Definition errorRegistry_get (key : string) : M (option ErrorCreator) :=
  gets (fun store => errorRegistry store !! key).

Definition handlerRegistry_get (key : string) : M (option Handler) :=
  gets (fun store => handlerRegistry store !! key).

(** [errorRegistry.set(key, creator)] and [handlerRegistry.set(key, fn)]. *)
Definition errorRegistry_set (key : string) (creator : ErrorCreator) (store : Store)
  : Store :=
  {| errorRegistry := <[key := creator]> (errorRegistry store);
     handlerRegistry := handlerRegistry store |}.

Definition handlerRegistry_set (key : string) (fn : Handler) (store : Store) : Store :=
  {| errorRegistry := errorRegistry store;
     handlerRegistry := <[key := fn]> (handlerRegistry store) |}.

(** [await handler(error, ...ctx)]. *)
Definition await_handler (handler : Handler) (error : JsError) (ctx : list JsValue)
  : M () :=
  fun s => let '(c, w) := handler error ctx s.2 in (c, (s.1, w)).

(** ** [create] *)

(** The [for (const seeker of seekers)] loop of [create]; [Some e] is its
    [return e], [None] is falling out of the loop. *)
Fixpoint create_for (data : ErrorData) (rest : list string) : M (option JsError) :=
  match rest with
  | [] => ret None
  | seeker :: rest =>
      let value := data_get data seeker in
      if not_nullish value then
        let key := String value in
        creator <- errorRegistry_get key ;;
        match creator with
        | Some creator =>
            e <- complete (createErrorFromCreator creator data) ;;
            ret (Some e)
        | None => create_for data rest
        end
      else create_for data rest
  end.

(** [data?.message ?? "Unknown error"], then the conversion [new Error] applies
    to its argument. *)
Definition message_or_default (data : ErrorData) : string :=
  let message := data_get data "message" in
  if not_nullish message then String message else "Unknown error".

Definition create (opts : Opts) (data : ErrorData) : M JsError :=
  returned <- (if bool_decide (seekers opts ≠ []) then create_for data (seekers opts)
               else ret None) ;;
  match returned with
  | Some e => ret e
  | None =>
      match baseError opts with
      | Some baseError => complete (createErrorFromCreator baseError data)
      | None => ret (new_Error (message_or_default data))
      end
  end.

(** ** [handleError] *)

(** The seeker loop of [handleError]; [true] is its [return]. *)
Fixpoint handleError_for (error : JsError) (ctx : list JsValue) (rest : list string)
  : M bool :=
  match rest with
  | [] => ret false
  | seeker :: rest =>
      let value := error_get error seeker in
      if not_nullish value then
        let key := String value in
        handler <- handlerRegistry_get key ;;
        match handler with
        | Some handler => await_handler handler error ctx ;;; ret true
        | None => handleError_for error ctx rest
        end
      else handleError_for error ctx rest
  end.

(** [if (constructorName)]: [undefined] and the empty string are falsy. *)
Definition truthy_name (constructorName : option string) : option string :=
  match constructorName with
  | Some "" => None
  | other => other
  end.

Definition handleError (opts : Opts) (error : JsError) (ctx : list JsValue) : M () :=
  returned <- (if bool_decide (seekers opts ≠ []) then handleError_for error ctx (seekers opts)
               else ret false) ;;
  if (returned : bool) then ret ()
  else
    match truthy_name (constructorName error) with
    | Some constructorName =>
        handler <- handlerRegistry_get constructorName ;;
        match handler with
        | Some handler => await_handler handler error ctx
        | None => ret ()
        end
    | None => ret ()
    end.

(** ** Construction and registration *)

Definition defaultSeekers : list string := ["code"; "status"].

(** [config?.seekers && config.seekers.length > 0 ? config.seekers : defaultSeekers] *)
Definition opts_seekers (config : option Config) : list string :=
  match config ≫= config_seekers with
  | Some (seeker :: rest) => seeker :: rest
  | _ => defaultSeekers
  end.

(** [{ errors: {}, handlers: {}, ...(config ?? {}), seekers: ... }]: a member
    the configuration leaves out keeps the empty object.  (A member spelled
    out as [undefined] would override it and be skipped by [if (errors)]: the
    maps get no entry either way.) *)
Definition make_opts (config : option Config) : Opts :=
  {| errors := Some (default [] (config ≫= config_errors));
     handlers := Some (default [] (config ≫= config_handlers));
     seekers := opts_seekers config;
     baseError := config ≫= config_baseError |}.

(** [for (const [code, creator] of Object.entries(errors)) errorRegistry.set(String(code), creator)];
    the property names of an object are strings already. *)
Fixpoint register_errors (entries : list (string * ErrorCreator)) (store : Store)
  : Store :=
  match entries with
  | [] => store
  | (code, creator) :: entries =>
      register_errors entries (errorRegistry_set code creator store)
  end.

Fixpoint register_handlers (entries : list (string * Handler)) (store : Store)
  : Store :=
  match entries with
  | [] => store
  | (code, handler) :: entries =>
      register_handlers entries (handlerRegistry_set code handler store)
  end.

(** [new Map()] twice. *)
Definition new_Store : Store := {| errorRegistry := ∅; handlerRegistry := ∅ |}.

(** The body of [createErrorRegistry] after [opts]: fill the fresh maps;
    [if (errors)] and [if (handlers)] skip an undefined member. *)
Definition init (opts : Opts) : Store :=
  let store :=
    match errors opts with
    | Some entries => register_errors entries new_Store
    | None => new_Store
    end in
  match handlers opts with
  | Some entries => register_handlers entries store
  | None => store
  end.

(** [createErrorRegistry(config)]: the constants and the maps that the
    returned methods close over. *)
Definition createErrorRegistry (config : option Config) : Opts * Store :=
  let opts := make_opts config in (opts, init opts).

(** The returned object: [createError] is [create], [handleError] is
    [handleError], and the two registration methods. *)
Definition registerError (key : Key) (creator : ErrorCreator) : M () :=
  modify (errorRegistry_set (String_key key) creator).

Definition registerHandler (key : Key) (fn : Handler) : M () :=
  modify (handlerRegistry_set (String_key key) fn).

(** *** Methods the returned object lacks

    The README, the changelog and the test suite call [unregisterError],
    [unregisterHandler] and [clear] on a registry; the object this
    [createErrorRegistry] returns has the four members above only. *)

(** Modelled from the spec: [removeError(key)] of the Registry Store (4.2),
    "remove if present, no-op (not an error) if absent". *)
Definition errorRegistry_delete (key : string) (store : Store) : Store :=
  {| errorRegistry := delete key (errorRegistry store);
     handlerRegistry := handlerRegistry store |}.

(** Modelled from the spec: [removeHandler(key)] of the Registry Store (4.2). *)
Definition handlerRegistry_delete (key : string) (store : Store) : Store :=
  {| errorRegistry := errorRegistry store;
     handlerRegistry := delete key (handlerRegistry store) |}.

(** Modelled from the spec: [unregisterError(key)] (4.5), "remove a single
    entry if present", the key normalised to a string as on registration. *)
Definition unregisterError (key : Key) : M () :=
  modify (errorRegistry_delete (String_key key)).

(** Modelled from the spec: [unregisterHandler(key)] (4.5). *)
Definition unregisterHandler (key : Key) : M () :=
  modify (handlerRegistry_delete (String_key key)).

(** Modelled from the spec: [clear()] (4.5), "empties both mappings". *)
Definition clear : M () := modify (fun _ => new_Store).

(** ** What the loops compute *)

(** The creator one seeker leads to: its value is not nullish and the
    stringified value is a key of [errorRegistry]. *)
Definition seeker_creator (store : Store) (data : ErrorData) (seeker : string)
  : option ErrorCreator :=
  let value := data_get data seeker in
  if not_nullish value then errorRegistry store !! String value else None.

Definition seeker_handler (store : Store) (error : JsError) (seeker : string)
  : option Handler :=
  let value := error_get error seeker in
  if not_nullish value then handlerRegistry store !! String value else None.

(** The first hit in list order. *)
Fixpoint first_hit {A} (hit : string -> option A) (rest : list string) : option A :=
  match rest with
  | [] => None
  | seeker :: rest =>
      match hit seeker with
      | Some a => Some a
      | None => first_hit hit rest
      end
  end.

(** The creator [create] ends up invoking, if any. *)
Definition selected_creator (opts : Opts) (store : Store) (data : ErrorData)
  : option ErrorCreator :=
  match first_hit (seeker_creator store data) (seekers opts) with
  | Some creator => Some creator
  | None => baseError opts
  end.

(** Steps 3 and 4 of the creation algorithm: [baseError], else a generic Error. *)
Definition fallback (opts : Opts) (data : ErrorData) : Completion JsError :=
  match baseError opts with
  | Some baseError => createErrorFromCreator baseError data
  | None => Normal (new_Error (message_or_default data))
  end.

(** The handler [handleError] ends up invoking, if any. *)
Definition selected_handler (opts : Opts) (store : Store) (error : JsError)
  : option Handler :=
  match first_hit (seeker_handler store error) (seekers opts) with
  | Some handler => Some handler
  | None => truthy_name (constructorName error) ≫= (handlerRegistry store !!.)
  end.

(** The Resolver as the spec words it (4.1): the first seeker whose value is
    not null, stringified; scanning stops there whatever the registry holds. *)
Fixpoint spec_resolve (get : string -> JsValue) (rest : list string) : option string :=
  match rest with
  | [] => None
  | seeker :: rest =>
      if not_nullish (get seeker) then Some (String (get seeker))
      else spec_resolve get rest
  end.

End Registry.

Notation "x <- m ;; k" := (bind m (fun x => k)).
Notation "m ;;; k" := (bind m (fun _ => k)).

(** * The earlier [createErrorRegistry]

    The file in its earlier form.  [opts], the two maps, their filling and the
    two registration methods are word for word those above ([make_opts],
    [init], [registerError], [registerHandler]).  The differences: a registered
    entry is a class and is always run with [new], the [prototype] test is
    applied to [baseError] only, and a handler gets one optional context. *)
Module Previous.
Section Registry.

Context {W : Type}.

(** The seeker loop of [create]: [return new CustomError(data)]. *)
Fixpoint create_for (data : ErrorData) (rest : list string) : @M W (option JsError) :=
  match rest with
  | [] => ret None
  | seeker :: rest =>
      let value := data_get data seeker in
      if not_nullish value then
        let key := String value in
        CustomError <- errorRegistry_get key ;;
        match CustomError with
        | Some CustomError =>
            e <- complete (onNew CustomError data) ;;
            ret (Some e)
        | None => create_for data rest
        end
      else create_for data rest
  end.

Definition create (opts : @Opts W) (data : ErrorData) : @M W JsError :=
  returned <- (if bool_decide (seekers opts ≠ []) then create_for data (seekers opts)
               else ret None) ;;
  match returned with
  | Some e => ret e
  | None =>
      match baseError opts with
      | Some baseError =>
          if has_prototype (kind baseError) then complete (onNew baseError data)
          else complete (onCall baseError data)
      | None => ret (new_Error (message_or_default data))
      end
  end.

(** The seeker loop of [handleError]: [await handler(error, ctx)], where an
    omitted [ctx] is [undefined]. *)
Fixpoint handleError_for (error : JsError) (ctx : JsValue) (rest : list string)
  : @M W bool :=
  match rest with
  | [] => ret false
  | seeker :: rest =>
      let value := error_get error seeker in
      if not_nullish value then
        let key := String value in
        handler <- handlerRegistry_get key ;;
        match handler with
        | Some handler => await_handler handler error [ctx] ;;; ret true
        | None => handleError_for error ctx rest
        end
      else handleError_for error ctx rest
  end.

Definition handleError (opts : @Opts W) (error : JsError) (ctx : JsValue) : @M W () :=
  returned <- (if bool_decide (seekers opts ≠ []) then handleError_for error ctx (seekers opts)
               else ret false) ;;
  if (returned : bool) then ret ()
  else
    match truthy_name (constructorName error) with
    | Some constructorName =>
        handler <- handlerRegistry_get constructorName ;;
        match handler with
        | Some handler => await_handler handler error [ctx]
        | None => ret ()
        end
    | None => ret ()
    end.

End Registry.
End Previous.

(** ** Concrete registries

    The fixtures follow [errorRegistry.test.ts]: classes that extend [Error],
    an arrow-function factory, handlers that record their call.  The world is
    the list of recorded calls. *)

Definition TypeError (message : string) : Thrown :=
  ThrownError {| constructorName := Some "TypeError";
                 properties := <["message" := VString message]>
                                 {["name" := VString "TypeError"]} |}.

(** [super(data.message)]: the message is converted to a string unless it is
    [undefined], in which case the prototype's empty message shows. *)
Definition super_message (value : JsValue) : string :=
  match value with
  | VUndefined => ""
  | _ => String value
  end.

(** [class name extends Error { constructor(data) { super(data.message); this.name = name } }] *)
Definition class_extends_Error (name : string) : ErrorCreator :=
  {| kind := ClassConstructor;
     onCall := fun _ =>
       Throw (TypeError "Class constructor cannot be invoked without 'new'");
     onNew := fun data =>
       match data with
       | DataRecord fields =>
           Normal {| constructorName := Some name;
                     properties :=
                       <["message" := VString (super_message (data_get data "message"))]>
                         {["name" := VString name]} |}
       | _ => Throw (TypeError "Cannot read properties of null or undefined")
       end |}.

(** [(data) => new name(data)] *)
Definition arrow_factory (name : string) : ErrorCreator :=
  {| kind := ArrowFunction;
     onCall := onNew (class_extends_Error name);
     onNew := fun _ => Throw (TypeError "creator is not a constructor") |}.

(** [function (data) { throw new Error("boom") }] *)
Definition throwing_function : ErrorCreator :=
  {| kind := PlainFunction;
     onCall := fun _ => Throw (ThrownError (new_Error "boom"));
     onNew := fun _ => Throw (ThrownError (new_Error "boom")) |}.

(** A handler that records its tag and the context it was given. *)
Definition recording_handler (tag : string) : @Handler (list string) :=
  fun error ctx calls => (Normal (), calls ++ tag :: (String <$> ctx)).

Definition record_of (fields : list (string * JsValue)) : ErrorData :=
  DataRecord (list_to_map fields).

Definition object_of (name : option string) (fields : list (string * JsValue)) : JsError :=
  {| constructorName := name; properties := list_to_map fields |}.

Definition config_of (given : option (list string)) (base : option ErrorCreator)
    (errs : list (string * ErrorCreator)) (hdls : list (string * @Handler (list string)))
  : option (@Config (list string)) :=
  Some {| config_seekers := given; config_baseError := base;
          config_errors := Some errs; config_handlers := Some hdls |}.

(** Walks a hypothesis over the members of a concrete seeker list. *)
Ltac each_seeker :=
  let s := fresh "s" in
  let Hin := fresh "Hin" in
  intros s Hin;
  repeat (apply elem_of_cons in Hin as [->|Hin]);
  try (by apply elem_of_nil in Hin).

(** * The registry on every host value

    The definitions so far read data and errors through [JsValue]: values whose
    conversion to a string cannot throw, with every integer printed in decimal,
    held by objects whose property reads cannot throw, and an error that is
    never [null].  This part drops those restrictions and follows the same
    source text, [create] and [handleError], on whatever [TErrorData = unknown]
    and [TError] admit at run time: a property read that throws (a getter), a
    value that [String] cannot convert, an error that is [null] or [undefined],
    a factory that returns [null]. *)
Module Host.

(** [Number.isSafeInteger]: the integers the host prints in plain decimal. *)
Definition is_safe_integer (n : Z) : Prop :=
  (-9007199254740991 ≤ n ≤ 9007199254740991)%Z.

Definition SafeInteger : Type := dsig is_safe_integer.

(** The safe integer [n]; [safe] is [I] for a literal in range. *)
Definition integer (n : Z) (safe : Is_true (bool_decide (is_safe_integer n)))
  : SafeInteger := exist _ n safe.

(** A host value.  [Other] is every value that is none of the first six (an
    object, an array, a function, a fractional or large number), given by what
    converting it to a string does: a string, or a throw, such as the
    [TypeError] on an object that cannot be converted to a primitive. *)
Inductive Value : Type :=
  | Undefined
  | Null
  | Boolean (b : bool)
  | Integer (n : SafeInteger)
  | Text (s : string)
  | Symbol (description : string)
  | Other (string_form : Completion string).

(** [value != null] *)
Definition not_nullish (value : Value) : bool :=
  match value with
  | Undefined | Null => false
  | _ => true
  end.

(** [String(value)] *)
Definition String (value : Value) : Completion string :=
  match value with
  | Undefined => Normal "undefined"
  | Null => Normal "null"
  | Boolean true => Normal "true"
  | Boolean false => Normal "false"
  | Integer n => Normal (pretty (`n))
  | Text s => Normal s
  | Symbol description => Normal (String.append "Symbol(" (String.append description ")"))
  | Other string_form => string_form
  end.

(** The conversion [new Error(message)] applies to its argument: that of
    [String], except that a symbol is refused. *)
Definition ToString (value : Value) : Completion string :=
  match value with
  | Symbol _ => Throw (TypeError "Cannot convert a Symbol value to a string")
  | _ => String value
  end.

(** A registration key, [string | number]; a number that is no safe integer
    is given by its string form.  [String(key)] cannot throw on either. *)
Inductive Key : Type :=
  | KeyString (s : string)
  | KeyNumber (n : SafeInteger)
  | KeyOtherNumber (string_form : string).

Definition String_key (key : Key) : string :=
  match key with
  | KeyString s => s
  | KeyNumber n => pretty (`n)
  | KeyOtherNumber string_form => string_form
  end.

(** What [object[p]] evaluates to, for every [p] where that is not plainly
    [undefined]: own and inherited properties alike, a value or the throw of
    a getter. *)
Definition Properties : Type := gmap string (Completion Value).

(** [TErrorData = unknown]. *)
Inductive Data : Type :=
  | DataUndefined
  | DataNull
  | DataObject (properties : Properties).

(** [dataRecord?.[seeker]]: [undefined], without a throw, on a nullish record. *)
Definition data_get (data : Data) (seeker : string) : Completion Value :=
  match data with
  | DataObject properties => default (Normal Undefined) (properties !! seeker)
  | _ => Normal Undefined
  end.

(** [TError] at run time: [null] or [undefined], or an object given by its
    properties and by what [error.constructor?.name] evaluates to. *)
Inductive Error : Type :=
  | ErrorNullish
  | ErrorObject (constructor_name : Completion Value) (properties : Properties).

(** [errorRecord?.[seeker]] *)
Definition error_get (error : Error) (seeker : string) : Completion Value :=
  match error with
  | ErrorObject _ properties => default (Normal Undefined) (properties !! seeker)
  | ErrorNullish => Normal Undefined
  end.

(** [(error.constructor as { name?: string })?.name]: reading [constructor]
    off [null] or [undefined] is a [TypeError]. *)
Definition constructor_name_of (error : Error) : Completion Value :=
  match error with
  | ErrorObject constructor_name _ => constructor_name
  | ErrorNullish =>
      Throw (TypeError "Cannot read properties of null or undefined (reading 'constructor')")
  end.

(** [if (constructorName)] followed by [handlerRegistry.get(constructorName)]:
    the keys of the map are strings, so only a string can be found, and the
    empty string is falsy. *)
Definition name_key (constructorName : Value) : option string :=
  match constructorName with
  | Text "" => None
  | Text name => Some name
  | _ => None
  end.

(** The object [new Error(message)] builds (its [stack] left out). *)
Definition new_Error (message : string) : Error :=
  ErrorObject (Normal (Text "Error"))
    (<["message" := Normal (Text message)]> {["name" := Normal (Text "Error")]}).

(** [new Error(message)]: the argument is converted to a string unless it is
    [undefined]. *)
Definition construct_Error (message : Value) : Completion Error :=
  match message with
  | Undefined => Normal (new_Error "")
  | _ =>
      match ToString message with
      | Normal text => Normal (new_Error text)
      | Throw t => Throw t
      end
  end.

(** [ErrorCreator<TErrorData, TError>], with what the host does on
    [creator(data)] and on [new creator(data)]. *)
Record ErrorCreator : Type := mkCreator {
  kind : FunctionKind;
  onCall : Data -> Completion Error;
  onNew : Data -> Completion Error;
}.

(** [createErrorFromCreator] *)
Definition createErrorFromCreator (creator : ErrorCreator) (data : Data)
  : Completion Error :=
  if has_prototype (kind creator) then onNew creator data
  else onCall creator data.

Section Registry.

Context {W : Type}.

Definition Handler : Type := Error -> list Value -> W -> Completion () * W.

(** The constants [create] and [handleError] close over. *)
Record Opts : Type := mkOpts {
  seekers : list string;
  baseError : option ErrorCreator;
}.

Record Store : Type := mkStore {
  errorRegistry : gmap string ErrorCreator;
  handlerRegistry : gmap string Handler;
}.

Definition M (A : Type) : Type := Store * W -> Completion A * (Store * W).

Definition ret {A} (a : A) : M A := fun s => (Normal a, s).

Definition bind {A B} (m : M A) (f : A -> M B) : M B :=
  fun s => match m s with
           | (Normal a, s') => f a s'
           | (Throw t, s') => (Throw t, s')
           end.

#[local] Set Warnings "-notation-overridden".
Local Notation "x <- m ;; k" := (bind m (fun x => k)).
Local Notation "m ;;; k" := (bind m (fun _ => k)).

Definition complete {A} (c : Completion A) : M A := fun s => (c, s).

Definition gets {A} (f : Store -> A) : M A := fun s => (Normal (f s.1), s).

Definition modify (f : Store -> Store) : M () := fun s => (Normal (), (f s.1, s.2)).

Definition errorRegistry_get (key : string) : M (option ErrorCreator) :=
  gets (fun store => errorRegistry store !! key).

Definition handlerRegistry_get (key : string) : M (option Handler) :=
  gets (fun store => handlerRegistry store !! key).

Definition errorRegistry_set (key : string) (creator : ErrorCreator) (store : Store)
  : Store :=
  {| errorRegistry := <[key := creator]> (errorRegistry store);
     handlerRegistry := handlerRegistry store |}.

Definition await_handler (handler : Handler) (error : Error) (ctx : list Value)
  : M () :=
  fun s => let '(c, w) := handler error ctx s.2 in (c, (s.1, w)).

(** The seeker loop of [create]. *)
Fixpoint create_for (data : Data) (rest : list string) : M (option Error) :=
  match rest with
  | [] => ret None
  | seeker :: rest =>
      value <- complete (data_get data seeker) ;;
      if not_nullish value then
        key <- complete (String value) ;;
        creator <- errorRegistry_get key ;;
        match creator with
        | Some creator =>
            e <- complete (createErrorFromCreator creator data) ;;
            ret (Some e)
        | None => create_for data rest
        end
      else create_for data rest
  end.

(** [new Error(data?.message ?? "Unknown error")] *)
Definition generic_Error (data : Data) : Completion Error :=
  match data_get data "message" with
  | Normal message =>
      construct_Error (if not_nullish message then message else Text "Unknown error")
  | Throw t => Throw t
  end.

Definition create (opts : Opts) (data : Data) : M Error :=
  returned <- (if bool_decide (seekers opts ≠ []) then create_for data (seekers opts)
               else ret None) ;;
  match returned with
  | Some e => ret e
  | None =>
      match baseError opts with
      | Some baseError => complete (createErrorFromCreator baseError data)
      | None => complete (generic_Error data)
      end
  end.

(** The seeker loop of [handleError]. *)
Fixpoint handleError_for (error : Error) (ctx : list Value) (rest : list string)
  : M bool :=
  match rest with
  | [] => ret false
  | seeker :: rest =>
      value <- complete (error_get error seeker) ;;
      if not_nullish value then
        key <- complete (String value) ;;
        handler <- handlerRegistry_get key ;;
        match handler with
        | Some handler => await_handler handler error ctx ;;; ret true
        | None => handleError_for error ctx rest
        end
      else handleError_for error ctx rest
  end.

Definition handleError (opts : Opts) (error : Error) (ctx : list Value) : M () :=
  returned <- (if bool_decide (seekers opts ≠ []) then handleError_for error ctx (seekers opts)
               else ret false) ;;
  if (returned : bool) then ret ()
  else
    constructorName <- complete (constructor_name_of error) ;;
    match name_key constructorName with
    | Some constructorName =>
        handler <- handlerRegistry_get constructorName ;;
        match handler with
        | Some handler => await_handler handler error ctx
        | None => ret ()
        end
    | None => ret ()
    end.

(** [registerError]: [errorRegistry.set(String(key), creator)]. *)
Definition registerError (key : Key) (creator : ErrorCreator) : M () :=
  modify (errorRegistry_set (String_key key) creator).

(** *** What the loops compute *)

(** What one seeker contributes: nothing ([Normal None]) when its value is
    nullish or its key is not in the map, an entry, or the throw of the read
    or of the conversion. *)
Definition look {A} (get : string -> Completion Value) (map : gmap string A)
    (seeker : string) : Completion (option A) :=
  match get seeker with
  | Normal value =>
      if not_nullish value then
        match String value with
        | Normal key => Normal (map !! key)
        | Throw t => Throw t
        end
      else Normal None
  | Throw t => Throw t
  end.

(** The first seeker, in list order, that contributes an entry or a throw. *)
Fixpoint scan {A} (look : string -> Completion (option A)) (rest : list string)
  : Completion (option A) :=
  match rest with
  | [] => Normal None
  | seeker :: rest =>
      match look seeker with
      | Normal None => scan look rest
      | found => found
      end
  end.

(** The creator [create] ends up invoking, if the scan does not throw. *)
Definition selected_creator (opts : Opts) (store : Store) (data : Data)
  : Completion (option ErrorCreator) :=
  match scan (look (data_get data) (errorRegistry store)) (seekers opts) with
  | Normal None => Normal (baseError opts)
  | found => found
  end.

(** [baseError], else the generic Error. *)
Definition fallback (opts : Opts) (data : Data) : Completion Error :=
  match baseError opts with
  | Some baseError => createErrorFromCreator baseError data
  | None => generic_Error data
  end.

(** What [handleError] does once the seeker loop has found nothing. *)
Definition constructor_fallback (error : Error) (ctx : list Value)
    (store : Store) (w : W) : Completion () * (Store * W) :=
  match constructor_name_of error with
  | Normal constructorName =>
      match name_key constructorName ≫= (handlerRegistry store !!.) with
      | Some handler => await_handler handler error ctx (store, w)
      | None => (Normal (), (store, w))
      end
  | Throw t => (Throw t, (store, w))
  end.

End Registry.
End Host.

(** ** Concrete host values

    The JSON value [{"toString": 1}]: an object that cannot be converted to a
    primitive, so that [String] throws on it. *)
Definition not_convertible : Host.Value :=
  Host.Other (Throw (TypeError "Cannot convert object to primitive value")).

(** [class name extends Error { constructor(data) { super(data.message); this.name = name } }] *)
Definition host_class_extends_Error (name : string) : Host.ErrorCreator :=
  {| Host.kind := ClassConstructor;
     Host.onCall := fun _ =>
       Throw (TypeError "Class constructor cannot be invoked without 'new'");
     Host.onNew := fun data =>
       match data with
       | Host.DataObject _ =>
           match Host.data_get data "message" with
           | Normal message =>
               match Host.construct_Error message with
               | Normal _ =>
                   Normal (Host.ErrorObject (Normal (Host.Text name))
                             (<["message" := Host.data_get data "message"]>
                                {["name" := Normal (Host.Text name)]}))
               | Throw t => Throw t
               end
           | Throw t => Throw t
           end
       | _ => Throw (TypeError "Cannot read properties of null or undefined")
       end |}.

Definition host_recording_handler (tag : string) : @Host.Handler (list string) :=
  fun error ctx calls => (Normal (), calls ++ [tag]).

Definition host_record_of (fields : list (string * Host.Value)) : Host.Data :=
  Host.DataObject (list_to_map (prod_map id Normal <$> fields)).

Definition host_object_of (name : Host.Value) (fields : list (string * Host.Value))
  : Host.Error :=
  Host.ErrorObject (Normal name) (list_to_map (prod_map id Normal <$> fields)).

(** The constants of a registry built with the default seekers. *)
Definition host_opts (base : option Host.ErrorCreator) : Host.Opts :=
  {| Host.seekers := defaultSeekers; Host.baseError := base |}.

Definition host_store (errs : list (string * Host.ErrorCreator))
    (hdls : list (string * @Host.Handler (list string))) : @Host.Store (list string) :=
  {| Host.errorRegistry := list_to_map errs; Host.handlerRegistry := list_to_map hdls |}.

(** * Facts about the registry *)

Section RegistryFacts.

Context {W : Type}.

(** ** Equations of the loops *)

Lemma first_hit_app {A} (hit : string -> option A) pre post :
  first_hit hit (pre ++ post) =
  match first_hit hit pre with Some a => Some a | None => first_hit hit post end.
Proof.
  induction pre as [|seeker pre IH]; simpl; [done|].
  destruct (hit seeker); [done|apply IH].
Qed.

Lemma first_hit_None {A} (hit : string -> option A) rest :
  first_hit hit rest = None ↔ ∀ seeker, seeker ∈ rest → hit seeker = None.
Proof.
  induction rest as [|seeker rest IH]; simpl.
  - split; [intros _ x Hx; by apply elem_of_nil in Hx|done].
  - destruct (hit seeker) eqn:Hhit.
    + split; [done|]. intros H. rewrite (H seeker) in Hhit; [done|left].
    + rewrite IH. split.
      * intros H x Hx. apply elem_of_cons in Hx as [->|Hx]; auto.
      * intros H x Hx. apply H. by right.
Qed.

Lemma create_for_eq data rest store (w : W) :
  create_for data rest (store, w) =
  (match first_hit (seeker_creator store data) rest with
   | Some creator =>
       match createErrorFromCreator creator data with
       | Normal e => Normal (Some e)
       | Throw t => Throw t
       end
   | None => Normal None
   end, (store, w)).
Proof.
  induction rest as [|seeker rest IH]; simpl; [done|].
  unfold seeker_creator.
  destruct (not_nullish (data_get data seeker)); [|apply IH].
  unfold bind at 1, errorRegistry_get, gets. simpl.
  destruct (errorRegistry store !! String (data_get data seeker)) as [creator|];
    [|apply IH].
  unfold bind, complete, ret.
  by destruct (createErrorFromCreator creator data).
Qed.

Lemma create_eq opts data store (w : W) :
  create opts data (store, w) =
  (match selected_creator opts store data with
   | Some creator => createErrorFromCreator creator data
   | None => Normal (new_Error (message_or_default data))
   end, (store, w)).
Proof.
  unfold create, selected_creator, bind.
  case_bool_decide as Hne.
  - rewrite create_for_eq.
    destruct (first_hit _ _) as [creator|].
    + by destruct (createErrorFromCreator creator data).
    + by destruct (baseError opts).
  - try apply dec_stable in Hne. rewrite Hne. simpl.
    by destruct (baseError opts).
Qed.

Lemma create_fallback opts data store (w : W) :
  first_hit (seeker_creator store data) (seekers opts) = None →
  create opts data (store, w) = (fallback opts data, (store, w)).
Proof.
  intros Hnone. rewrite create_eq. unfold selected_creator, fallback.
  rewrite Hnone. by destruct (baseError opts).
Qed.

Lemma handleError_for_eq error ctx rest store (w : W) :
  handleError_for error ctx rest (store, w) =
  match first_hit (seeker_handler store error) rest with
  | Some handler =>
      match await_handler handler error ctx (store, w) with
      | (Normal _, s) => (Normal true, s)
      | (Throw t, s) => (Throw t, s)
      end
  | None => (Normal false, (store, w))
  end.
Proof.
  induction rest as [|seeker rest IH]; simpl; [done|].
  unfold seeker_handler.
  destruct (not_nullish (error_get error seeker)); [|apply IH].
  unfold bind at 1, handlerRegistry_get, gets. simpl.
  destruct (handlerRegistry store !! String (error_get error seeker)) as [handler|];
    [|apply IH].
  unfold bind, ret.
  by destruct (await_handler handler error ctx (store, w)) as [[[]|t] s].
Qed.

Lemma handleError_eq opts error ctx store (w : W) :
  handleError opts error ctx (store, w) =
  match selected_handler opts store error with
  | Some handler => await_handler handler error ctx (store, w)
  | None => (Normal (), (store, w))
  end.
Proof.
  unfold handleError, selected_handler, bind.
  assert (Hfor :
    (if bool_decide (seekers opts ≠ [])
     then handleError_for error ctx (seekers opts) else ret false) (store, w) =
    handleError_for error ctx (seekers opts) (store, w)).
  { case_bool_decide as Hne; [done|].
    try apply dec_stable in Hne. by rewrite Hne. }
  rewrite Hfor, handleError_for_eq.
  destruct (first_hit _ _) as [handler|].
  - by destruct (await_handler handler error ctx (store, w)) as [[[]|t] s].
  - destruct (truthy_name (constructorName error)) as [name|]; simpl; [|done].
    unfold handlerRegistry_get, gets, ret. simpl.
    by destruct (handlerRegistry store !! name).
Qed.

Lemma no_registered_key_no_hit (store : @Store W) data rest :
  (∀ seeker, seeker ∈ rest → not_nullish (data_get data seeker) = true →
     errorRegistry store !! String (data_get data seeker) = None) →
  first_hit (seeker_creator store data) rest = None.
Proof.
  intros Hnone. apply first_hit_None. intros seeker Hin.
  unfold seeker_creator.
  destruct (not_nullish (data_get data seeker)) eqn:Hvalue; [|done].
  by apply Hnone.
Qed.


Lemma first_hit_middle {A} (hit : string -> option A) pre seeker post a :
  (∀ s, s ∈ pre → hit s = None) → hit seeker = Some a →
  first_hit hit (pre ++ seeker :: post) = Some a.
Proof.
  intros Hpre Hhit. rewrite first_hit_app.
  apply first_hit_None in Hpre. rewrite Hpre. simpl. by rewrite Hhit.
Qed.

(** ** The registration surface *)


(** C2, amended. After [unregisterError(k)] the map has no entry under
    [String(k)]; [createError] on data whose seeker values are [String(k)] or
    unregistered keys goes to the fallback chain, [baseError] if configured,
    else a generic Error. *)
Theorem unregisterError_falls_through opts store (w : W) key data :
  (∀ seeker, seeker ∈ seekers opts →
     not_nullish (data_get data seeker) = true →
     String (data_get data seeker) ≠ String_key key →
     errorRegistry store !! String (data_get data seeker) = None) →
  errorRegistry (errorRegistry_delete (String_key key) store) !! String_key key = None ∧
  (unregisterError key ;;; create opts data) (store, w) =
    (fallback opts data, (errorRegistry_delete (String_key key) store, w)).
Proof.
  intros Hother. split; [apply lookup_delete_eq|].
  unfold bind, unregisterError, modify. simpl.
  apply create_fallback, no_registered_key_no_hit.
  intros seeker Hin Hvalue. simpl.
  destruct (decide (String (data_get data seeker) = String_key key)) as [->|Hne].
  - apply lookup_delete_eq.
  - rewrite lookup_delete_ne by done. by apply Hother.
Qed.

(** ** Seeker resolution *)


(** C4. Resolution is order-stable for [createError] and for [handleError]:
    a seeker whose value is not null and whose key is registered wins over
    every later seeker, as soon as no earlier seeker has such a value. *)
Theorem seeker_order_stable opts store (w : W) pre seeker post :
  seekers opts = pre ++ seeker :: post →
  (∀ data creator,
     (∀ s, s ∈ pre → seeker_creator store data s = None) →
     seeker_creator store data seeker = Some creator →
     create opts data (store, w) = (createErrorFromCreator creator data, (store, w))) ∧
  (∀ error ctx handler,
     (∀ s, s ∈ pre → seeker_handler store error s = None) →
     seeker_handler store error seeker = Some handler →
     handleError opts error ctx (store, w) =
       let '(c, w') := handler error ctx w in (c, (store, w'))).
Proof.
  intros Hseekers. split.
  - intros data creator Hpre Hhit.
    rewrite create_eq. unfold selected_creator.
    by rewrite Hseekers, (first_hit_middle _ _ _ _ creator).
  - intros error ctx handler Hpre Hhit.
    rewrite handleError_eq. unfold selected_handler.
    by rewrite Hseekers, (first_hit_middle _ _ _ _ handler).
Qed.

(** ** The fallback chain *)

(** C8. A throw of the selected creator (registered or [baseError]) is the
    completion of [createError], the thrown value as it is, and the maps and
    the world are as before the call. *)
Theorem create_propagates_throw opts store (w : W) data creator t :
  selected_creator opts store data = Some creator →
  createErrorFromCreator creator data = Throw t →
  create opts data (store, w) = (Throw t, (store, w)).
Proof.
  intros Hsel Hthrow. by rewrite create_eq, Hsel, Hthrow.
Qed.

(** C10. Constructor or factory is decided by the [prototype] test alone, for
    a registered creator as for [baseError]: the selected creator is run with
    [new] when it has a [prototype] property, and called otherwise.  An arrow
    function is called; a class and a non-arrow function are run with [new]. *)
Theorem creator_dispatch_by_prototype opts store (w : W) data creator :
  selected_creator opts store data = Some creator →
  create opts data (store, w) =
    (if has_prototype (kind creator) then onNew creator data
     else onCall creator data, (store, w)) ∧
  createErrorFromCreator creator data =
    match kind creator with
    | ArrowFunction => onCall creator data
    | ClassConstructor | PlainFunction => onNew creator data
    end.
Proof.
  intros Hsel. split.
  - by rewrite create_eq, Hsel.
  - unfold createErrorFromCreator. by destruct (kind creator).
Qed.

(** ** Construction *)

(** C9. Leaving [seekers] out (or the whole configuration), or giving the
    empty list, builds the same registry as giving [["code", "status"]]: the
    same constants and the same maps, hence the same [createError] and
    [handleError] from every state on. *)
Theorem empty_seekers_default base errs (hdls : option (list (string * @Handler W))) :
  let config given :=
    Some {| config_seekers := given; config_baseError := base;
            config_errors := errs; config_handlers := hdls |} in
  defaultSeekers = ["code"; "status"] ∧
  createErrorRegistry (config None) = createErrorRegistry (config (Some ["code"; "status"])) ∧
  createErrorRegistry (config (Some [])) = createErrorRegistry (config (Some ["code"; "status"])) ∧
  @createErrorRegistry W None =
    createErrorRegistry
      (Some {| config_seekers := Some ["code"; "status"]; config_baseError := None;
               config_errors := None; config_handlers := None |}) ∧
  (∀ given, given = None ∨ given = Some [] →
     ∀ data error ctx s,
       create (createErrorRegistry (config given)).1 data s =
         create (createErrorRegistry (config (Some ["code"; "status"]))).1 data s ∧
       handleError (createErrorRegistry (config given)).1 error ctx s =
         handleError (createErrorRegistry (config (Some ["code"; "status"]))).1 error ctx s).
Proof.
  intros config. do 4 (split; [done|]).
  intros given Hgiven data error ctx s.
  by destruct Hgiven as [-> | ->].
Qed.

End RegistryFacts.

(** * Laws of registration and dispatch *)

Section RegistryLaws.

Context {W : Type}.

(** ** The maps after the filling loops *)

Lemma store_eq (s1 s2 : @Store W) :
  errorRegistry s1 = errorRegistry s2 → handlerRegistry s1 = handlerRegistry s2 →
  s1 = s2.
Proof. destruct s1, s2; simpl; by intros -> ->. Qed.

Lemma register_errors_handlerRegistry entries (store : @Store W) :
  handlerRegistry (register_errors entries store) = handlerRegistry store.
Proof.
  revert store. induction entries as [|[code creator] entries IH]; intros store;
    simpl; [done|by rewrite IH].
Qed.

Lemma register_handlers_errorRegistry entries (store : @Store W) :
  errorRegistry (register_handlers entries store) = errorRegistry store.
Proof.
  revert store. induction entries as [|[code handler] entries IH]; intros store;
    simpl; [done|by rewrite IH].
Qed.

Lemma register_errors_app entries1 entries2 (store : @Store W) :
  register_errors (entries1 ++ entries2) store =
  register_errors entries2 (register_errors entries1 store).
Proof.
  revert store. induction entries1 as [|[code creator] entries1 IH]; intros store;
    simpl; [done|apply IH].
Qed.

Lemma register_handlers_app entries1 entries2 (store : @Store W) :
  register_handlers (entries1 ++ entries2) store =
  register_handlers entries2 (register_handlers entries1 store).
Proof.
  revert store. induction entries1 as [|[code handler] entries1 IH]; intros store;
    simpl; [done|apply IH].
Qed.

Lemma register_errors_absent entries key (store : @Store W) :
  key ∉ entries.*1 →
  errorRegistry (register_errors entries store) !! key = errorRegistry store !! key.
Proof.
  revert store. induction entries as [|[code creator] entries IH]; intros store Hnot;
    simpl in *; [done|].
  apply not_elem_of_cons in Hnot as [Hne Hnot].
  rewrite IH by done. simpl. by rewrite lookup_insert_ne.
Qed.

Lemma register_handlers_absent entries key (store : @Store W) :
  key ∉ entries.*1 →
  handlerRegistry (register_handlers entries store) !! key = handlerRegistry store !! key.
Proof.
  revert store. induction entries as [|[code handler] entries IH]; intros store Hnot;
    simpl in *; [done|].
  apply not_elem_of_cons in Hnot as [Hne Hnot].
  rewrite IH by done. simpl. by rewrite lookup_insert_ne.
Qed.

Lemma init_errorRegistry (opts : @Opts W) :
  errorRegistry (init opts) =
  errorRegistry (register_errors (default [] (errors opts)) (@new_Store W)).
Proof.
  unfold init. destruct (handlers opts) as [hdls|], (errors opts) as [errs|];
    simpl; by rewrite ?register_handlers_errorRegistry.
Qed.

Lemma register_handlers_ext entries (s1 s2 : @Store W) :
  handlerRegistry s1 = handlerRegistry s2 →
  handlerRegistry (register_handlers entries s1) =
  handlerRegistry (register_handlers entries s2).
Proof.
  revert s1 s2. induction entries as [|[code handler] entries IH]; intros s1 s2 Heq;
    simpl; [done|].
  apply IH. simpl. by rewrite Heq.
Qed.

Lemma init_handlerRegistry (opts : @Opts W) :
  handlerRegistry (init opts) =
  handlerRegistry (register_handlers (default [] (handlers opts)) (@new_Store W)).
Proof.
  unfold init. destruct (handlers opts) as [hdls|], (errors opts) as [errs|]; simpl;
    try done.
  - apply register_handlers_ext, register_errors_handlerRegistry.
  - apply register_errors_handlerRegistry.
Qed.

Lemma first_hit_ext {A} (hit1 hit2 : string -> option A) rest :
  (∀ seeker, seeker ∈ rest → hit1 seeker = hit2 seeker) →
  first_hit hit1 rest = first_hit hit2 rest.
Proof.
  induction rest as [|seeker rest IH]; intros Hext; simpl; [done|].
  rewrite (Hext seeker) by left.
  destruct (hit2 seeker); [done|]. apply IH. intros s Hs. apply Hext. by right.
Qed.

(** ** Registration, then use *)

(** X1. After [registerError(key, creator)], [createError] builds with
    [creator] every data one of whose seekers carries a non-null value that
    stringifies to [String(key)], provided no earlier seeker carried a key the
    map held before; what the map held under [String(key)] does not matter. *)
Theorem registerError_then_create opts store (w : W) key creator data pre seeker post :
  seekers opts = pre ++ seeker :: post →
  (∀ s, s ∈ pre → not_nullish (data_get data s) = true →
     errorRegistry store !! String (data_get data s) = None) →
  not_nullish (data_get data seeker) = true →
  String (data_get data seeker) = String_key key →
  (registerError key creator ;;; create opts data) (store, w) =
    (createErrorFromCreator creator data,
     (errorRegistry_set (String_key key) creator store, w)).
Proof.
  intros Hseekers Hpre Hvalue Hkey.
  unfold bind, registerError, modify. simpl.
  rewrite create_eq. unfold selected_creator. rewrite Hseekers, first_hit_app.
  assert (Hhit : first_hit
            (seeker_creator (errorRegistry_set (String_key key) creator store) data)
            (seeker :: post) = Some creator).
  { simpl. unfold seeker_creator at 1. rewrite Hvalue, Hkey. simpl.
    by rewrite lookup_insert_eq. }
  rewrite Hhit. clear Hhit Hseekers.
  induction pre as [|s pre IH]; simpl; [done|].
  unfold seeker_creator at 1.
  destruct (not_nullish (data_get data s)) eqn:Hs.
  - simpl. destruct (decide (String_key key = String (data_get data s))) as [<-|Hne].
    + by rewrite lookup_insert_eq.
    + rewrite lookup_insert_ne by done. rewrite (Hpre s) by (done || left).
      apply IH. intros s' Hin. apply Hpre. by right.
  - apply IH. intros s' Hin. apply Hpre. by right.
Qed.

(** X2. After [registerHandler(key, fn)], [handleError] dispatches to [fn],
    with the error and the context values in order, every error one of whose
    seekers carries a non-null value that stringifies to [String(key)],
    provided no earlier seeker carried a key the map held before. *)
Theorem registerHandler_then_handleError opts store (w : W) key fn error ctx
    pre seeker post :
  seekers opts = pre ++ seeker :: post →
  (∀ s, s ∈ pre → not_nullish (error_get error s) = true →
     handlerRegistry store !! String (error_get error s) = None) →
  not_nullish (error_get error seeker) = true →
  String (error_get error seeker) = String_key key →
  (registerHandler key fn ;;; handleError opts error ctx) (store, w) =
    let '(c, w') := fn error ctx w in
    (c, (handlerRegistry_set (String_key key) fn store, w')).
Proof.
  intros Hseekers Hpre Hvalue Hkey.
  unfold bind, registerHandler, modify. simpl.
  rewrite handleError_eq. unfold selected_handler. rewrite Hseekers, first_hit_app.
  assert (Hhit : first_hit
            (seeker_handler (handlerRegistry_set (String_key key) fn store) error)
            (seeker :: post) = Some fn).
  { simpl. unfold seeker_handler at 1. rewrite Hvalue, Hkey. simpl.
    by rewrite lookup_insert_eq. }
  rewrite Hhit. clear Hhit Hseekers.
  induction pre as [|s pre IH]; simpl; [done|].
  unfold seeker_handler at 1.
  destruct (not_nullish (error_get error s)) eqn:Hs.
  - simpl. destruct (decide (String_key key = String (error_get error s))) as [<-|Hne].
    + by rewrite lookup_insert_eq.
    + rewrite lookup_insert_ne by done. rewrite (Hpre s) by (done || left).
      apply IH. intros s' Hin. apply Hpre. by right.
  - apply IH. intros s' Hin. apply Hpre. by right.
Qed.

(** X3. Registering twice under keys with the same string form, a number and
    its decimal text included, leaves the second registration alone: the
    first is overwritten without a trace, in either map. *)
Theorem registration_overwrites k1 k2 c1 c2 (h1 h2 : @Handler W) s :
  String_key k1 = String_key k2 →
  (registerError k1 c1 ;;; registerError k2 c2) s = registerError k2 c2 s ∧
  (registerHandler k1 h1 ;;; registerHandler k2 h2) s = registerHandler k2 h2 s.
Proof.
  intros Hkey. destruct s as [store w].
  unfold bind, registerError, registerHandler, modify,
    errorRegistry_set, handlerRegistry_set. simpl.
  rewrite Hkey. by rewrite !insert_insert_eq.
Qed.

(** X4. Registrations under keys with different string forms commute, in
    either map. *)
Theorem registration_commutes k1 k2 c1 c2 (h1 h2 : @Handler W) s :
  String_key k1 ≠ String_key k2 →
  (registerError k1 c1 ;;; registerError k2 c2) s =
    (registerError k2 c2 ;;; registerError k1 c1) s ∧
  (registerHandler k1 h1 ;;; registerHandler k2 h2) s =
    (registerHandler k2 h2 ;;; registerHandler k1 h1) s.
Proof.
  intros Hne. destruct s as [store w].
  unfold bind, registerError, registerHandler, modify,
    errorRegistry_set, handlerRegistry_set. simpl.
  split; do 3 f_equal; by apply insert_insert_ne.
Qed.

(** X6. The two maps are independent: [registerHandler] does not change what
    [createError] returns, and [registerError] changes neither the handler
    [handleError] invokes nor what that handler does to the world. *)
Theorem maps_are_independent opts store (w : W) key creator fn data error ctx :
  (registerHandler key fn ;;; create opts data) (store, w) =
    ((create opts data (store, w)).1,
     (handlerRegistry_set (String_key key) fn store, w)) ∧
  (registerError key creator ;;; handleError opts error ctx) (store, w) =
    ((handleError opts error ctx (store, w)).1,
     (errorRegistry_set (String_key key) creator store,
      (handleError opts error ctx (store, w)).2.2)).
Proof.
  unfold bind, registerHandler, registerError, modify. simpl. split.
  - by rewrite !create_eq.
  - rewrite !handleError_eq.
    change (selected_handler opts (errorRegistry_set (String_key key) creator store) error)
      with (selected_handler opts store error).
    destruct (selected_handler opts store error) as [handler|]; [|done].
    unfold await_handler. simpl. by destruct (handler error ctx w).
Qed.

(** X7. [registerError] leaves [createError] as it was on every data none of
    whose non-null seeker values stringifies to [String(key)]. *)
Theorem registerError_frame opts store (w : W) key creator data :
  (∀ s, s ∈ seekers opts → not_nullish (data_get data s) = true →
     String (data_get data s) ≠ String_key key) →
  (registerError key creator ;;; create opts data) (store, w) =
    ((create opts data (store, w)).1,
     (errorRegistry_set (String_key key) creator store, w)).
Proof.
  intros Hother. unfold bind, registerError, modify. simpl.
  rewrite !create_eq. unfold selected_creator. simpl.
  rewrite (first_hit_ext _ (seeker_creator store data)); [done|].
  intros s Hin. unfold seeker_creator.
  destruct (not_nullish (data_get data s)) eqn:Hs; [|done].
  simpl. rewrite lookup_insert_ne; [done|].
  intros Heq. by apply (Hother s).
Qed.

(** ** What the two entry points never do *)

(** X8. [baseError] is consulted only when no seeker hits: two registries with
    the same seekers and maps agree on every data that has a non-null seeker
    value under a registered key, whatever their [baseError]. *)
Theorem registered_creator_precedes_baseError (opts1 opts2 : @Opts W) store (w : W)
    data seeker :
  seekers opts1 = seekers opts2 →
  seeker ∈ seekers opts1 →
  not_nullish (data_get data seeker) = true →
  is_Some (errorRegistry store !! String (data_get data seeker)) →
  create opts1 data (store, w) = create opts2 data (store, w).
Proof.
  intros Hseekers Hin Hvalue [creator Hcreator].
  rewrite !create_eq. unfold selected_creator. rewrite <- Hseekers.
  destruct (first_hit (seeker_creator store data) (seekers opts1)) as [c|] eqn:Hhit;
    [done|].
  rewrite first_hit_None in Hhit. specialize (Hhit seeker Hin).
  unfold seeker_creator in Hhit. rewrite Hvalue, Hcreator in Hhit. done.
Qed.

(** ** The configuration *)

(** X11. The maps of a fresh registry hold the configured entries and nothing
    else: under a key, the last entry of [errors] (of [handlers]) with that
    key; no entry under a key that [errors] (that [handlers]) does not name,
    whatever the other member holds. *)
Theorem configured_entries_are_registered (cfg : @Config W) errs hdls :
  config_errors cfg = Some errs →
  config_handlers cfg = Some hdls →
  (∀ pre key creator post,
     errs = pre ++ (key, creator) :: post → key ∉ post.*1 →
     errorRegistry (createErrorRegistry (Some cfg)).2 !! key = Some creator) ∧
  (∀ key, key ∉ errs.*1 →
     errorRegistry (createErrorRegistry (Some cfg)).2 !! key = None) ∧
  (∀ pre key handler post,
     hdls = pre ++ (key, handler) :: post → key ∉ post.*1 →
     handlerRegistry (createErrorRegistry (Some cfg)).2 !! key = Some handler) ∧
  (∀ key, key ∉ hdls.*1 →
     handlerRegistry (createErrorRegistry (Some cfg)).2 !! key = None).
Proof.
  intros Herrs Hhdls. unfold createErrorRegistry. simpl.
  rewrite init_errorRegistry, init_handlerRegistry. simpl.
  rewrite Herrs, Hhdls. simpl. repeat split.
  - intros pre key creator post -> Hnot.
    rewrite register_errors_app. simpl.
    rewrite register_errors_absent by done. simpl. apply lookup_insert_eq.
  - intros key Hnot. by rewrite register_errors_absent.
  - intros pre key handler post -> Hnot.
    rewrite register_handlers_app. simpl.
    rewrite register_handlers_absent by done. simpl. apply lookup_insert_eq.
  - intros key Hnot. by rewrite register_handlers_absent.
Qed.

(** X12. Registering at run time is the same as having configured the entry
    last: [registerError(key, creator)] on a fresh registry gives the maps of
    the registry configured with the entry appended to [errors], and likewise
    [registerHandler] and [handlers]. *)
Theorem registration_extends_configuration given base errs hdls (w : W)
    key creator handler :
  let fresh errs hdls :=
    (createErrorRegistry
       (Some {| config_seekers := given; config_baseError := base;
                config_errors := Some errs; config_handlers := Some hdls |})).2 in
  registerError (KeyString key) creator (fresh errs hdls, w) =
    (Normal (), (fresh (errs ++ [(key, creator)]) hdls, w)) ∧
  registerHandler (KeyString key) handler (fresh errs hdls, w) =
    (Normal (), (fresh errs (hdls ++ [(key, handler)]), w)).
Proof.
  intros fresh. unfold registerError, registerHandler, modify. simpl.
  split; do 2 f_equal; apply store_eq; subst fresh; unfold createErrorRegistry; simpl;
    rewrite ?init_errorRegistry, ?init_handlerRegistry; simpl;
    rewrite ?register_errors_app, ?register_handlers_app; done.
Qed.

(** X13. The seekers of a registry are never empty, and a non-empty configured
    list is kept as given: the default is not merged into it. *)
Theorem seekers_never_empty (config : option (@Config W)) :
  seekers (createErrorRegistry config).1 ≠ [] ∧
  (∀ cfg given, config = Some cfg → config_seekers cfg = Some given → given ≠ [] →
     seekers (createErrorRegistry config).1 = given).
Proof.
  unfold createErrorRegistry, make_opts, opts_seekers. simpl. split.
  - destruct (config ≫= config_seekers) as [[|seeker rest]|]; done.
  - intros cfg given -> Hgiven Hne. simpl. rewrite Hgiven.
    by destruct given.
Qed.

(** ** The earlier version *)

Lemma previous_create_for_agrees data rest store (w : W) :
  (∀ key creator, errorRegistry store !! key = Some creator →
     has_prototype (kind creator) = true) →
  Previous.create_for data rest (store, w) = create_for data rest (store, w).
Proof.
  intros Hclasses. induction rest as [|seeker rest IH]; simpl; [done|].
  destruct (not_nullish (data_get data seeker)); [|apply IH].
  unfold bind at 1 3, errorRegistry_get, gets. simpl.
  destruct (errorRegistry store !! String (data_get data seeker)) as [creator|] eqn:Hkey;
    [|apply IH].
  unfold createErrorFromCreator. by rewrite (Hclasses _ _ Hkey).
Qed.

(** X14. On maps that hold classes and non-arrow functions only (creators with
    a [prototype]), the earlier [createError] and the present one return the
    same completion for every data and every [baseError]. *)
Theorem previous_create_agrees opts store (w : W) data :
  (∀ key creator, errorRegistry store !! key = Some creator →
     has_prototype (kind creator) = true) →
  Previous.create opts data (store, w) = create opts data (store, w).
Proof.
  intros Hclasses. unfold Previous.create, create, bind.
  assert (Hfor :
    (if bool_decide (seekers opts ≠ [])
     then Previous.create_for data (seekers opts) else ret None) (store, w) =
    (if bool_decide (seekers opts ≠ [])
     then create_for data (seekers opts) else ret None) (store, w)).
  { case_bool_decide; [by apply previous_create_for_agrees|done]. }
  rewrite Hfor.
  destruct ((if bool_decide (seekers opts ≠ []) then create_for data (seekers opts)
             else ret None) (store, w)) as [[[e|]|t] s']; try done.
  destruct (baseError opts) as [b|]; [|done].
  unfold createErrorFromCreator. by destruct (has_prototype (kind b)).
Qed.

Lemma previous_handleError_for_agrees error ctx rest store (w : W) :
  Previous.handleError_for error ctx rest (store, w) =
  handleError_for error [ctx] rest (store, w).
Proof.
  induction rest as [|seeker rest IH]; simpl; [done|].
  destruct (not_nullish (error_get error seeker)); [|apply IH].
  unfold bind at 1 3, handlerRegistry_get, gets. simpl.
  by destruct (handlerRegistry store !! String (error_get error seeker)).
Qed.

(** X15. The earlier [handleError(error, ctx)] is the present
    [handleError(error, ctx)] with its single context value: the same handler,
    the same arguments, the same completion. *)
Theorem previous_handleError_agrees opts store (w : W) error ctx :
  Previous.handleError opts error ctx (store, w) =
  handleError opts error [ctx] (store, w).
Proof.
  unfold Previous.handleError, handleError, bind.
  assert (Hfor :
    (if bool_decide (seekers opts ≠ [])
     then Previous.handleError_for error ctx (seekers opts) else ret false) (store, w) =
    (if bool_decide (seekers opts ≠ [])
     then handleError_for error [ctx] (seekers opts) else ret false) (store, w)).
  { case_bool_decide; [apply previous_handleError_for_agrees|done]. }
  by rewrite Hfor.
Qed.

(** X16. The earlier [createError] runs the registered entry it finds with
    [new], arrow function or not: it has no [prototype] test on that path.
    The entry found is the one of the first seeker, in list order, whose
    non-null value is a registered key. *)
Theorem previous_create_runs_new opts store (w : W) data pre seeker post creator :
  seekers opts = pre ++ seeker :: post →
  (∀ s, s ∈ pre → not_nullish (data_get data s) = true →
     errorRegistry store !! String (data_get data s) = None) →
  not_nullish (data_get data seeker) = true →
  errorRegistry store !! String (data_get data seeker) = Some creator →
  Previous.create opts data (store, w) = (onNew creator data, (store, w)).
Proof.
  intros Hseekers Hpre Hvalue Hkey. unfold Previous.create, bind.
  assert (Hne : seekers opts ≠ []) by (rewrite Hseekers; by destruct pre).
  rewrite bool_decide_eq_true_2 by done.
  rewrite Hseekers. clear Hseekers Hne.
  assert (Hfor : Previous.create_for data (pre ++ seeker :: post) (store, w) =
            (match onNew creator data with
             | Normal e => Normal (Some e)
             | Throw t => Throw t
             end, (store, w))).
  { induction pre as [|s pre IH]; simpl.
    - rewrite Hvalue. unfold bind at 1, errorRegistry_get, gets. simpl.
      rewrite Hkey. unfold bind, complete, ret.
      by destruct (onNew creator data).
    - destruct (not_nullish (data_get data s)) eqn:Hs.
      + unfold bind at 1, errorRegistry_get, gets. simpl.
        rewrite (Hpre s) by (done || left).
        apply IH. intros s' Hin. apply Hpre. by right.
      + apply IH. intros s' Hin. apply Hpre. by right. }
  rewrite Hfor. by destruct (onNew creator data).
Qed.

End RegistryLaws.

(** * Facts about the registry on every host value *)

Section HostFacts.

Context {W : Type}.

(** ** Equations of the loops *)

Lemma host_scan_None {A} (lk : string -> Completion (option A)) rest :
  (∀ seeker, seeker ∈ rest → lk seeker = Normal None) → Host.scan lk rest = Normal None.
Proof.
  induction rest as [|seeker rest IH]; intros Hnone; simpl; [done|].
  rewrite (Hnone seeker) by left. apply IH. intros s Hs. apply Hnone. by right.
Qed.

Lemma host_scan_Some {A} (lk : string -> Completion (option A)) rest a :
  Host.scan lk rest = Normal (Some a) →
  ∃ seeker, seeker ∈ rest ∧ lk seeker = Normal (Some a).
Proof.
  induction rest as [|seeker rest IH]; simpl; [done|].
  destruct (lk seeker) as [[a'|]|t] eqn:Hlk.
  - intros [= <-]. exists seeker. split; [left|done].
  - intros Hrest. destruct (IH Hrest) as (s & Hin & Hs).
    exists s. split; [by right|done].
  - done.
Qed.

Lemma host_scan_Throw {A} (lk : string -> Completion (option A)) rest t :
  Host.scan lk rest = Throw t → ∃ seeker, seeker ∈ rest ∧ lk seeker = Throw t.
Proof.
  induction rest as [|seeker rest IH]; simpl; [done|].
  destruct (lk seeker) as [[a'|]|t'] eqn:Hlk.
  - done.
  - intros Hrest. destruct (IH Hrest) as (s & Hin & Hs).
    exists s. split; [by right|done].
  - intros [= <-]. exists seeker. split; [left|done].
Qed.

Lemma host_look_Some {A} get (map : gmap string A) seeker a :
  Host.look get map seeker = Normal (Some a) → ∃ key, map !! key = Some a.
Proof.
  unfold Host.look. destruct (get seeker) as [value|]; [|done].
  destruct (Host.not_nullish value); [|done].
  destruct (Host.String value) as [key|]; [|done].
  intros [= Hkey]. eauto.
Qed.

(** A seeker that reads as nullish, or as a value whose key the map lacks. *)
Lemma host_look_miss {A} get (map : gmap string A) seeker :
  (∃ value, get seeker = Normal value ∧
     (Host.not_nullish value = true →
      ∃ key, Host.String value = Normal key ∧ map !! key = None)) →
  Host.look get map seeker = Normal None.
Proof.
  intros (value & Hget & Hkey). unfold Host.look. rewrite Hget.
  destruct (Host.not_nullish value); [|done].
  destruct (Hkey eq_refl) as (key & -> & Hnone). by rewrite Hnone.
Qed.

Lemma host_create_for_eq data rest (store : @Host.Store W) (w : W) :
  Host.create_for data rest (store, w) =
  (match Host.scan (Host.look (Host.data_get data) (Host.errorRegistry store)) rest with
   | Normal (Some creator) =>
       match Host.createErrorFromCreator creator data with
       | Normal e => Normal (Some e)
       | Throw t => Throw t
       end
   | Normal None => Normal None
   | Throw t => Throw t
   end, (store, w)).
Proof.
  induction rest as [|seeker rest IH]; simpl; [done|].
  unfold Host.look, Host.bind at 1, Host.complete at 1.
  destruct (Host.data_get data seeker) as [value|t]; [|done].
  destruct (Host.not_nullish value); [|apply IH].
  unfold Host.bind at 1, Host.complete at 1.
  destruct (Host.String value) as [key|t]; [|done].
  unfold Host.bind at 1, Host.errorRegistry_get, Host.gets. simpl.
  destruct (Host.errorRegistry store !! key) as [creator|]; [|apply IH].
  unfold Host.bind, Host.complete, Host.ret.
  by destruct (Host.createErrorFromCreator creator data).
Qed.

Lemma host_create_eq opts data (store : @Host.Store W) (w : W) :
  Host.create opts data (store, w) =
  (match Host.selected_creator opts store data with
   | Normal (Some creator) => Host.createErrorFromCreator creator data
   | Normal None => Host.generic_Error data
   | Throw t => Throw t
   end, (store, w)).
Proof.
  unfold Host.create, Host.selected_creator, Host.bind.
  case_bool_decide as Hne.
  - rewrite host_create_for_eq.
    destruct (Host.scan _ _) as [[creator|]|t]; [| |done].
    + by destruct (Host.createErrorFromCreator creator data).
    + by destruct (Host.baseError opts).
  - try apply dec_stable in Hne. rewrite Hne. simpl.
    by destruct (Host.baseError opts).
Qed.

Lemma host_handleError_for_eq error ctx rest (store : @Host.Store W) (w : W) :
  Host.handleError_for error ctx rest (store, w) =
  match Host.scan (Host.look (Host.error_get error) (Host.handlerRegistry store)) rest with
  | Normal (Some handler) =>
      match Host.await_handler handler error ctx (store, w) with
      | (Normal _, s) => (Normal true, s)
      | (Throw t, s) => (Throw t, s)
      end
  | Normal None => (Normal false, (store, w))
  | Throw t => (Throw t, (store, w))
  end.
Proof.
  induction rest as [|seeker rest IH]; simpl; [done|].
  unfold Host.look, Host.bind at 1, Host.complete at 1.
  destruct (Host.error_get error seeker) as [value|t]; [|done].
  destruct (Host.not_nullish value); [|apply IH].
  unfold Host.bind at 1, Host.complete at 1.
  destruct (Host.String value) as [key|t]; [|done].
  unfold Host.bind at 1, Host.handlerRegistry_get, Host.gets. simpl.
  destruct (Host.handlerRegistry store !! key) as [handler|]; [|apply IH].
  unfold Host.bind, Host.ret.
  by destruct (Host.await_handler handler error ctx (store, w)) as [[[]|t] s].
Qed.

Lemma host_handleError_eq opts error ctx (store : @Host.Store W) (w : W) :
  Host.handleError opts error ctx (store, w) =
  match Host.scan (Host.look (Host.error_get error) (Host.handlerRegistry store))
          (Host.seekers opts) with
  | Normal (Some handler) => Host.await_handler handler error ctx (store, w)
  | Normal None => Host.constructor_fallback error ctx store w
  | Throw t => (Throw t, (store, w))
  end.
Proof.
  unfold Host.handleError, Host.bind at 1.
  assert (Hfor :
    (if bool_decide (Host.seekers opts ≠ [])
     then Host.handleError_for error ctx (Host.seekers opts) else Host.ret false)
      (store, w) =
    Host.handleError_for error ctx (Host.seekers opts) (store, w)).
  { case_bool_decide as Hne; [done|].
    try apply dec_stable in Hne. by rewrite Hne. }
  rewrite Hfor, host_handleError_for_eq.
  destruct (Host.scan _ _) as [[handler|]|t]; [| |done].
  - by destruct (Host.await_handler handler error ctx (store, w)) as [[[]|t] s].
  - unfold Host.constructor_fallback, Host.bind, Host.complete.
    destruct (Host.constructor_name_of error) as [constructorName|t]; [|done].
    destruct (Host.name_key constructorName) as [name|]; simpl; [|done].
    unfold Host.handlerRegistry_get, Host.gets, Host.ret. simpl.
    by destruct (Host.handlerRegistry store !! name).
Qed.

(** ** The fallback chain *)

(** C5, amended. When every seeker property reads, without a throw, as a
    nullish value or as a value whose string form is no key of the map, no
    [baseError] is configured and [data.message] reads without a throw,
    [createError] builds a generic Error: its message is ["Unknown error"]
    when [data.message] is nullish and the string form of [data.message]
    otherwise (the message itself when it is a string); when [data.message]
    cannot be converted to a string, [createError] throws what the conversion
    throws. *)
Theorem host_create_generic_error opts (store : @Host.Store W) (w : W) data message :
  (∀ seeker, seeker ∈ Host.seekers opts →
     ∃ value, Host.data_get data seeker = Normal value ∧
       (Host.not_nullish value = true →
        ∃ key, Host.String value = Normal key ∧ Host.errorRegistry store !! key = None)) →
  Host.baseError opts = None →
  Host.data_get data "message" = Normal message →
  (Host.not_nullish message = false →
     Host.create opts data (store, w) =
       (Normal (Host.new_Error "Unknown error"), (store, w))) ∧
  (∀ text, Host.not_nullish message = true → Host.ToString message = Normal text →
     Host.create opts data (store, w) = (Normal (Host.new_Error text), (store, w))) ∧
  (∀ t, Host.not_nullish message = true → Host.ToString message = Throw t →
     Host.create opts data (store, w) = (Throw t, (store, w))) ∧
  (∀ text, Host.error_get (Host.new_Error text) "message" = Normal (Host.Text text)) ∧
  (∀ s, Host.ToString (Host.Text s) = Normal s).
Proof.
  intros Hscan Hbase Hmessage.
  assert (Hcreate : Host.create opts data (store, w) =
            (Host.construct_Error
               (if Host.not_nullish message then message else Host.Text "Unknown error"),
             (store, w))).
  { rewrite host_create_eq. unfold Host.selected_creator.
    rewrite host_scan_None by (intros seeker Hin; by apply host_look_miss, Hscan).
    rewrite Hbase. unfold Host.generic_Error. by rewrite Hmessage. }
  rewrite Hcreate. repeat split.
  - by intros ->.
  - intros text Hvalue Htext. rewrite Hvalue. unfold Host.construct_Error.
    rewrite Htext. by destruct message.
  - intros t Hvalue Hthrow. rewrite Hvalue. unfold Host.construct_Error.
    rewrite Hthrow. by destruct message.
Qed.

(** C6, amended. [createError] returns an error object, and leaves the maps
    alone, whenever nothing it runs on the way throws: the reads and string
    conversions of the seeker values up to the selected creator, that creator
    (a registered one or [baseError]), which is to return an object, and, on
    the generic path, the read and conversion of [data.message].  A [null] or
    [undefined] record goes to the fallback chain, with no throw of the
    registry's own; only [null] and [undefined] are skipped, so the seeker
    values [false], [0] and the empty string are looked up. *)
Theorem host_create_total opts (store : @Host.Store W) (w : W) data selected :
  Host.selected_creator opts store data = Normal selected →
  (∀ creator, selected = Some creator →
     ∃ name properties,
       Host.createErrorFromCreator creator data =
         Normal (Host.ErrorObject name properties)) →
  (selected = None →
     ∃ message, Host.data_get data "message" = Normal message ∧
       (Host.not_nullish message = true → ∃ text, Host.ToString message = Normal text)) →
  (∃ name properties,
     Host.create opts data (store, w) =
       (Normal (Host.ErrorObject name properties), (store, w))) ∧
  (∀ nullish, nullish = Host.DataNull ∨ nullish = Host.DataUndefined →
     Host.create opts nullish (store, w) = (Host.fallback opts nullish, (store, w)) ∧
     (Host.baseError opts = None →
      Host.create opts nullish (store, w) =
        (Normal (Host.new_Error "Unknown error"), (store, w)))) ∧
  (∀ value, Host.not_nullish value = false ↔
     value = Host.Null ∨ value = Host.Undefined) ∧
  (∀ value key seeker rest creator,
     value = Host.Boolean false ∧ key = "false" ∨
     value = Host.Integer (Host.integer 0 I) ∧ key = "0" ∨
     value = Host.Text "" ∧ key = "" →
     Host.seekers opts = seeker :: rest →
     Host.data_get data seeker = Normal value →
     Host.errorRegistry store !! key = Some creator →
     Host.create opts data (store, w) =
       (Host.createErrorFromCreator creator data, (store, w))).
Proof.
  intros Hsel Hcreator Hmessage. split; [|split; [|split]].
  - rewrite host_create_eq, Hsel. destruct selected as [creator|].
    + destruct (Hcreator creator eq_refl) as (name & properties & ->). eauto.
    + destruct (Hmessage eq_refl) as (message & Hread & Htext).
      unfold Host.generic_Error. rewrite Hread.
      destruct (Host.not_nullish message) eqn:Hvalue.
      * destruct (Htext eq_refl) as (text & Hstring).
        unfold Host.construct_Error. rewrite Hstring.
        destruct message; try discriminate Hvalue; unfold Host.new_Error; eauto.
      * unfold Host.construct_Error, Host.new_Error. simpl. eauto.
  - intros nullish Hnullish.
    assert (Hcreate : Host.create opts nullish (store, w) =
              (Host.fallback opts nullish, (store, w))).
    { rewrite host_create_eq. unfold Host.selected_creator, Host.fallback.
      rewrite host_scan_None.
      - by destruct (Host.baseError opts).
      - intros seeker _. unfold Host.look. by destruct Hnullish as [-> | ->]. }
    split; [done|]. intros Hbase. rewrite Hcreate. unfold Host.fallback.
    rewrite Hbase. by destruct Hnullish as [-> | ->].
  - intros value. split.
    + destruct value; simpl; intros Hvalue; try discriminate Hvalue; auto.
    + by intros [-> | ->].
  - intros value key seeker rest creator Hvalue Hseekers Hread Hkey.
    rewrite host_create_eq. unfold Host.selected_creator. rewrite Hseekers. simpl.
    unfold Host.look. rewrite Hread.
    destruct Hvalue as [[-> ->] | [[-> ->] | [-> ->]]]; simpl.
    + by rewrite Hkey.
    + change (pretty 0%Z) with "0". by rewrite Hkey.
    + by rewrite Hkey.
Qed.

(** ** Handler dispatch *)

(** C7, amended. For an error that is not [null] or [undefined], when every
    seeker property reads, without a throw, as a nullish value or as a value
    whose string form is no key of the handler map, [handleError] evaluates
    [error.constructor?.name]; if that is a non-empty string under which the
    map has an entry, it invokes that handler with [(error, ...ctx)]; if it is
    anything else, or the map has no such entry, [handleError] returns normally
    and changes nothing.  (If evaluating the name throws, so does
    [handleError], with nothing changed.) *)
Theorem host_handleError_constructor_fallback opts (store : @Host.Store W) (w : W)
    constructor_name properties ctx :
  let error := Host.ErrorObject constructor_name properties in
  (∀ seeker, seeker ∈ Host.seekers opts →
     ∃ value, Host.error_get error seeker = Normal value ∧
       (Host.not_nullish value = true →
        ∃ key, Host.String value = Normal key ∧ Host.handlerRegistry store !! key = None)) →
  Host.handleError opts error ctx (store, w) =
    match constructor_name with
    | Normal (Host.Text name) =>
        if decide (name = "") then (Normal (), (store, w))
        else match Host.handlerRegistry store !! name with
             | Some handler => let '(c, w') := handler error ctx w in (c, (store, w'))
             | None => (Normal (), (store, w))
             end
    | Normal _ => (Normal (), (store, w))
    | Throw t => (Throw t, (store, w))
    end.
Proof.
  intros error Hscan. rewrite host_handleError_eq.
  rewrite host_scan_None by (intros seeker Hin; by apply host_look_miss, Hscan).
  unfold Host.constructor_fallback. simpl.
  destruct constructor_name as [[| | | |name| |]|t]; try done.
  destruct (decide (name = "")) as [->|Hne]; [done|].
  assert (Host.name_key (Host.Text name) = Some name) as ->.
  { destruct name as [|a name]; [done|reflexivity]. }
  simpl. by destruct (Host.handlerRegistry store !! name).
Qed.

(** A [null] or [undefined] error: every [errorRecord?.[seeker]] is
    [undefined], then reading [error.constructor] throws. *)
Lemma host_handleError_nullish opts (store : @Host.Store W) (w : W) ctx :
  ∃ t, Host.handleError opts Host.ErrorNullish ctx (store, w) = (Throw t, (store, w)).
Proof.
  rewrite host_handleError_eq. rewrite host_scan_None by done.
  unfold Host.constructor_fallback. simpl. eauto.
Qed.

(** ** Number keys *)

(** X5. For safe integers [n] and [m]: after [registerError(n, creator)], the
    key the data value [m] stringifies to is held by [creator] exactly when
    [m] is [n], and is answered as before otherwise.  Registering under [n]
    and under its decimal text are the same operation. *)
Theorem host_number_key_meets_number_value (store : @Host.Store W) (w : W) n m creator :
  Host.String (Host.Integer m) = Normal (pretty (`m)) ∧
  Host.bind (Host.registerError (Host.KeyNumber n) creator)
    (λ _, Host.errorRegistry_get (pretty (`m))) (store, w) =
    (Normal (if decide (m = n) then Some creator
             else Host.errorRegistry store !! pretty (`m)),
     (Host.errorRegistry_set (pretty (`n)) creator store, w)) ∧
  Host.registerError (Host.KeyNumber n) creator (store, w) =
    Host.registerError (Host.KeyString (pretty (`n))) creator (store, w).
Proof.
  split; [done|]. split; [|done].
  unfold Host.bind, Host.registerError, Host.modify, Host.errorRegistry_get, Host.gets.
  simpl. destruct (decide (m = n)) as [->|Hne].
  - by rewrite lookup_insert_eq.
  - rewrite lookup_insert_ne; [done|].
    intros Heq. apply Hne. symmetry. apply dsig_eq. by apply (inj pretty).
Qed.

(** ** What the two entry points never do *)

(** X9. The completion of [createError] is always one of three: that of a
    creator the map holds, that of the fallback chain, or the throw of the
    read or string conversion of a seeker value.  The registry's own code
    writes to neither map on the way. *)
Theorem host_create_reads_only opts (store : @Host.Store W) (w : W) data :
  (Host.create opts data (store, w)).2 = (store, w) ∧
  ((∃ key creator, Host.errorRegistry store !! key = Some creator ∧
      (Host.create opts data (store, w)).1 = Host.createErrorFromCreator creator data) ∨
   (Host.create opts data (store, w)).1 = Host.fallback opts data ∨
   (∃ seeker t, seeker ∈ Host.seekers opts ∧
      Host.look (Host.data_get data) (Host.errorRegistry store) seeker = Throw t ∧
      (Host.create opts data (store, w)).1 = Throw t)).
Proof.
  rewrite host_create_eq. split; [done|]. simpl.
  unfold Host.selected_creator, Host.fallback.
  destruct (Host.scan _ _) as [[creator|]|t] eqn:Hscan.
  - left. apply host_scan_Some in Hscan as (seeker & _ & Hlook).
    apply host_look_Some in Hlook as [key Hkey]. eauto.
  - right. left. by destruct (Host.baseError opts).
  - right. right. apply host_scan_Throw in Hscan as (seeker & Hin & Hlook). eauto.
Qed.

(** X10. One call of [handleError] invokes at most one handler, one the map
    holds, once, with the error and the context as given.  The call returns
    with nothing changed, or throws with nothing changed what a seeker read,
    a string conversion or the evaluation of the constructor name throws (the
    [TypeError] on a [null] error included), or completes as that one handler
    does in the world it leaves. *)
Theorem host_handleError_invokes_at_most_one_handler opts (store : @Host.Store W)
    (w : W) error ctx :
  Host.handleError opts error ctx (store, w) = (Normal (), (store, w)) ∨
  (∃ t, Host.handleError opts error ctx (store, w) = (Throw t, (store, w)) ∧
     ((∃ seeker, seeker ∈ Host.seekers opts ∧
         Host.look (Host.error_get error) (Host.handlerRegistry store) seeker = Throw t) ∨
      Host.constructor_name_of error = Throw t)) ∨
  (∃ key handler,
     Host.handlerRegistry store !! key = Some handler ∧
     Host.handleError opts error ctx (store, w) =
       let '(c, w') := handler error ctx w in (c, (store, w'))).
Proof.
  rewrite host_handleError_eq.
  destruct (Host.scan _ _) as [[handler|]|t] eqn:Hscan.
  - right. right. apply host_scan_Some in Hscan as (seeker & _ & Hlook).
    apply host_look_Some in Hlook as [key Hkey]. by exists key, handler.
  - unfold Host.constructor_fallback.
    destruct (Host.constructor_name_of error) as [constructorName|t] eqn:Hname.
    + destruct (Host.name_key constructorName) as [name|]; simpl; [|by left].
      destruct (Host.handlerRegistry store !! name) as [handler|] eqn:Hkey; [|by left].
      right. right. by exists name, handler.
    + right. left. exists t. split; [done|by right].
  - right. left. exists t. split; [done|].
    left. apply host_scan_Throw in Hscan as (seeker & Hin & Hlook). eauto.
Qed.

End HostFacts.

(** * Runs on concrete registries *)

(** ** Runs of the test suite *)

Example default_configuration_generic_error :
  (create (createErrorRegistry None).1 (record_of [("message", VString "Test error")])
     ((createErrorRegistry None).2, @nil string)).1
  = Normal (new_Error "Test error").
Proof. reflexivity. Qed.

Example default_message_when_missing :
  (create (createErrorRegistry None).1 (record_of [])
     ((createErrorRegistry None).2, @nil string)).1
  = Normal (new_Error "Unknown error").
Proof. reflexivity. Qed.

Example number_status_is_stringified :
  let registry := createErrorRegistry
    (config_of None None [("404", class_extends_Error "NotFoundError")] []) in
  (create registry.1 (record_of [("status", VNumber 404); ("message", VString "gone")])
     (registry.2, [])).1
  = onNew (class_extends_Error "NotFoundError")
      (record_of [("status", VNumber 404); ("message", VString "gone")]).
Proof. reflexivity. Qed.

Example overwriting_registered_errors :
  let registry := createErrorRegistry (config_of None None [] []) in
  ((registerError (KeyString "X") (class_extends_Error "C1") ;;;
    registerError (KeyString "X") (class_extends_Error "C2") ;;;
    create registry.1 (record_of [("code", VString "X")])) (registry.2, [])).1
  = onNew (class_extends_Error "C2") (record_of [("code", VString "X")]).
Proof. reflexivity. Qed.

Example handler_receives_context_in_order :
  let registry := createErrorRegistry
    (config_of None None [] [("404", recording_handler "h404")]) in
  (handleError registry.1 (object_of (Some "Object") [("status", VNumber 404)])
     [VString "req-123"; VString "user-456"] (registry.2, [])).2.2
  = ["h404"; "req-123"; "user-456"].
Proof. reflexivity. Qed.

Example constructor_name_fallback :
  let registry := createErrorRegistry
    (config_of None None [] [("NamedError", recording_handler "named")]) in
  (handleError registry.1 (object_of (Some "NamedError") [("message", VString "Test")])
     [] (registry.2, [])).2.2
  = ["named"].
Proof. reflexivity. Qed.

(** ** The registration surface, on the test suite's registries *)


(** "should unregister an error" *)
Lemma unregisterError_falls_through_run :
  let registry := createErrorRegistry
    (config_of None None [("TEST", class_extends_Error "TestError")] []) in
  let data := record_of [("code", VString "TEST"); ("message", VString "Test")] in
  (create registry.1 data (registry.2, @nil string)).1 =
    onNew (class_extends_Error "TestError") data ∧
  ((unregisterError (KeyString "TEST") ;;; create registry.1 data) (registry.2, [])).1 =
    Normal (new_Error "Test").
Proof.
  intros registry data. split; [reflexivity|].
  destruct (unregisterError_falls_through registry.1 registry.2 [] (KeyString "TEST") data)
    as [_ Hcreate].
  - each_seeker; intros Hvalue Hne; vm_compute in Hvalue, Hne; done.
  - by rewrite Hcreate.
Defined.

(** C2 as stated fails: a class registered under a code and under a status.
    The Resolver of the spec yields ["NOT_FOUND"] for the data; after
    [unregisterError("NOT_FOUND")] the loop of [create] goes on to [status]
    and the same class builds the error, not the fallback chain. *)
Lemma unregisterError_later_seeker_still_hits :
  let registry := createErrorRegistry
    (config_of None None
       [("NOT_FOUND", class_extends_Error "NotFoundError");
        ("404", class_extends_Error "NotFoundError")] []) in
  let data := record_of [("code", VString "NOT_FOUND"); ("status", VNumber 404)] in
  let key := KeyString "NOT_FOUND" in
  ¬ (spec_resolve (data_get data) (seekers registry.1) = Some (String_key key) →
     errorRegistry registry.2 !! String_key key = Some (class_extends_Error "NotFoundError") →
     ((unregisterError key ;;; create registry.1 data) (registry.2, @nil string)).1 ≠
       onNew (class_extends_Error "NotFoundError") data ∧
     ((unregisterError key ;;; create registry.1 data) (registry.2, @nil string)).1 =
       fallback registry.1 data).
Proof.
  intros registry data key Hclaim.
  destruct Hclaim as [Hnot _]; [reflexivity|reflexivity|].
  apply Hnot. reflexivity.
Qed.

(** ** Seeker resolution, on concrete registries *)



(** The scenario of the spec: seekers [["a", "b"]], data [{a: "K1", b: "K2"}],
    both keys registered in both maps. *)
Lemma seeker_order_stable_run :
  let registry := createErrorRegistry
    (config_of (Some ["a"; "b"]) None
       [("K1", class_extends_Error "FirstError"); ("K2", class_extends_Error "SecondError")]
       [("K1", recording_handler "first"); ("K2", recording_handler "second")]) in
  let fields := [("a", VString "K1"); ("b", VString "K2")] in
  create registry.1 (record_of fields) (registry.2, []) =
    (onNew (class_extends_Error "FirstError") (record_of fields), (registry.2, [])) ∧
  handleError registry.1 (object_of (Some "Object") fields) [VString "ctx"] (registry.2, []) =
    (Normal (), (registry.2, ["first"; "ctx"])).
Proof.
  intros registry fields.
  destruct (seeker_order_stable registry.1 registry.2 [] [] "a" ["b"] eq_refl)
    as [Hcreate Hhandle].
  split.
  - apply (Hcreate (record_of fields) (class_extends_Error "FirstError")).
    + each_seeker.
    + reflexivity.
  - apply (Hhandle (object_of (Some "Object") fields) [VString "ctx"]
             (recording_handler "first")).
    + each_seeker.
    + reflexivity.
Defined.

(** ** The fallback chain, on concrete registries *)

(** The seeker values [false], [0] and [""] are keys like any other. *)
Example falsy_seeker_values_resolve :
  let registry := createErrorRegistry
    (config_of None None
       [("false", class_extends_Error "FalseError"); ("0", class_extends_Error "ZeroError");
        ("", class_extends_Error "EmptyError")] []) in
  let run value := (create registry.1 (record_of [("code", value)]) (registry.2, @nil string)).1 in
  run (VBoolean false) = onNew (class_extends_Error "FalseError") (record_of [("code", VBoolean false)]) ∧
  run (VNumber 0) = onNew (class_extends_Error "ZeroError") (record_of [("code", VNumber 0)]) ∧
  run (VString "") = onNew (class_extends_Error "EmptyError") (record_of [("code", VString "")]).
Proof. repeat split. Qed.

(** A registered function that throws, and the same function as [baseError]. *)
Lemma create_propagates_throw_run :
  let registered := createErrorRegistry
    (config_of None None [("BOOM", throwing_function)] []) in
  let base := createErrorRegistry (config_of None (Some throwing_function) [] []) in
  let data := record_of [("code", VString "BOOM")] in
  create registered.1 data (registered.2, @nil string) =
    (Throw (ThrownError (new_Error "boom")), (registered.2, [])) ∧
  create base.1 data (base.2, @nil string) =
    (Throw (ThrownError (new_Error "boom")), (base.2, [])).
Proof.
  intros registered base data. split.
  - apply (create_propagates_throw registered.1 registered.2 [] data throwing_function);
      reflexivity.
  - apply (create_propagates_throw base.1 base.2 [] data throwing_function);
      reflexivity.
Defined.

(** An arrow-function factory is called; a class is run with [new]. *)
Lemma creator_dispatch_by_prototype_run :
  let registry := createErrorRegistry
    (config_of None (Some (class_extends_Error "ApiError"))
       [("FACTORY", arrow_factory "FactoryError")] []) in
  let hit := record_of [("code", VString "FACTORY")] in
  let miss := record_of [("code", VString "OTHER")] in
  create registry.1 hit (registry.2, @nil string) =
    (onCall (arrow_factory "FactoryError") hit, (registry.2, [])) ∧
  create registry.1 miss (registry.2, @nil string) =
    (onNew (class_extends_Error "ApiError") miss, (registry.2, [])).
Proof.
  intros registry hit miss. split.
  - apply (creator_dispatch_by_prototype registry.1 registry.2 [] hit
             (arrow_factory "FactoryError")); reflexivity.
  - apply (creator_dispatch_by_prototype registry.1 registry.2 [] miss
             (class_extends_Error "ApiError")); reflexivity.
Defined.

(** ** Handler dispatch, on concrete registries *)

(** C7 as stated fails: an error of an anonymous class (constructor name [""])
    and a handler registered under the key [""].  No seeker leads to a
    handler, the map has an entry under the constructor name, and
    [handleError] returns without invoking it: [if (constructorName)] is
    false for the empty string. *)
Lemma empty_constructor_name_is_not_looked_up :
  let registry := createErrorRegistry
    (config_of None None [] [("", recording_handler "anonymous")]) in
  let error := object_of (Some "") [("message", VString "Test")] in
  ¬ (first_hit (seeker_handler registry.2 error) (seekers registry.1) = None →
     ∀ name handler,
       constructorName error = Some name →
       handlerRegistry registry.2 !! name = Some handler →
       handleError registry.1 error [] (registry.2, []) =
         let '(c, w') := handler error [] [] in (c, (registry.2, w'))).
Proof.
  intros registry error Hclaim.
  specialize (Hclaim eq_refl "" (recording_handler "anonymous") eq_refl eq_refl).
  apply (f_equal (λ r, r.2.2)) in Hclaim. vm_compute in Hclaim. discriminate Hclaim.
Qed.

(** ** Construction, on a concrete configuration *)

(** "should default to ["code", "status"] when seekers is empty array" *)
Lemma empty_seekers_default_run :
  let config given := config_of given None [("TEST", class_extends_Error "CustomError")] [] in
  let data := record_of [("code", VString "TEST"); ("message", VString "Test")] in
  createErrorRegistry (config (Some [])) = createErrorRegistry (config (Some ["code"; "status"])) ∧
  createErrorRegistry (config None) = createErrorRegistry (config (Some ["code"; "status"])) ∧
  (create (createErrorRegistry (config (Some []))).1 data
     ((createErrorRegistry (config (Some []))).2, @nil string)).1 =
    onNew (class_extends_Error "CustomError") data.
Proof.
  intros config data.
  destruct (empty_seekers_default (W := list string) None
              (Some [("TEST", class_extends_Error "CustomError")]) (Some []))
    as (_ & Hnone & Hempty & _).
  split; [exact Hempty|]. split; [exact Hnone|reflexivity].
Defined.

(** ** Registration laws, on concrete registries *)

(** "should allow dynamic error registration with number key" *)
Lemma registerError_then_create_run :
  let registry := createErrorRegistry (config_of None None [] []) in
  let data := record_of [("status", VNumber 404); ("message", VString "Not found")] in
  ((registerError (KeyNumber 404) (class_extends_Error "NotFoundError") ;;;
    create registry.1 data) (registry.2, @nil string)).1 =
  onNew (class_extends_Error "NotFoundError") data.
Proof.
  intros registry data.
  rewrite (registerError_then_create registry.1 registry.2 [] (KeyNumber 404)
             (class_extends_Error "NotFoundError") data ["code"] "status" []).
  - reflexivity.
  - reflexivity.
  - each_seeker. intros Hvalue. vm_compute in Hvalue. done.
  - reflexivity.
  - reflexivity.
Defined.

(** "should allow dynamic handler registration" *)
Lemma registerHandler_then_handleError_run :
  let registry := createErrorRegistry (config_of None None [] []) in
  let error := object_of (Some "TestError") [("code", VString "TEST")] in
  ((registerHandler (KeyString "TEST") (recording_handler "test") ;;;
    handleError registry.1 error [VString "req-1"]) (registry.2, [])).2.2 =
  ["test"; "req-1"].
Proof.
  intros registry error.
  rewrite (registerHandler_then_handleError registry.1 registry.2 [] (KeyString "TEST")
             (recording_handler "test") error [VString "req-1"] [] "code" ["status"]).
  - reflexivity.
  - reflexivity.
  - each_seeker.
  - reflexivity.
  - reflexivity.
Defined.

(** The number [404] and the text ["404"] are one key. *)
Lemma registration_overwrites_run :
  let registry := createErrorRegistry (config_of None None [] []) in
  (registerError (KeyNumber 404) (class_extends_Error "First") ;;;
   registerError (KeyString "404") (class_extends_Error "Second")) (registry.2, @nil string) =
  registerError (KeyString "404") (class_extends_Error "Second") (registry.2, []).
Proof.
  intros registry.
  apply (registration_overwrites (KeyNumber 404) (KeyString "404")
           (class_extends_Error "First") (class_extends_Error "Second")
           (recording_handler "first") (recording_handler "second") (registry.2, [])).
  reflexivity.
Defined.

Lemma registration_commutes_run :
  let registry := createErrorRegistry (config_of None None [] []) in
  (registerError (KeyString "A") (class_extends_Error "AError") ;;;
   registerError (KeyNumber 500) (class_extends_Error "ServerError")) (registry.2, @nil string) =
  (registerError (KeyNumber 500) (class_extends_Error "ServerError") ;;;
   registerError (KeyString "A") (class_extends_Error "AError")) (registry.2, []).
Proof.
  intros registry.
  apply (registration_commutes (KeyString "A") (KeyNumber 500)
           (class_extends_Error "AError") (class_extends_Error "ServerError")
           (recording_handler "a") (recording_handler "b") (registry.2, [])).
  vm_compute. discriminate.
Defined.

Lemma registerError_frame_run :
  let registry := createErrorRegistry
    (config_of None None [("TEST", class_extends_Error "TestError")] []) in
  let data := record_of [("code", VString "TEST"); ("message", VString "Test")] in
  ((registerError (KeyString "OTHER") (class_extends_Error "OtherError") ;;;
    create registry.1 data) (registry.2, @nil string)).1 =
  onNew (class_extends_Error "TestError") data.
Proof.
  intros registry data.
  rewrite (registerError_frame registry.1 registry.2 [] (KeyString "OTHER")
             (class_extends_Error "OtherError") data).
  - reflexivity.
  - each_seeker; intros Hvalue; vm_compute; done.
Defined.

(** "should prefer registry error over base error" *)
Lemma registered_creator_precedes_baseError_run :
  let errs := [("CUSTOM", class_extends_Error "CustomError")] in
  let with_base := createErrorRegistry
    (config_of None (Some (class_extends_Error "BaseError")) errs []) in
  let without := createErrorRegistry (config_of None None errs []) in
  let data := record_of [("code", VString "CUSTOM"); ("message", VString "Test")] in
  create with_base.1 data (with_base.2, @nil string) =
  create without.1 data (with_base.2, []).
Proof.
  intros errs with_base without data.
  apply (registered_creator_precedes_baseError with_base.1 without.1 with_base.2 []
           data "code").
  - reflexivity.
  - left.
  - reflexivity.
  - eexists. reflexivity.
Defined.

(** ** The configuration, on concrete entries *)

Lemma configured_entries_are_registered_run :
  let NotFound := class_extends_Error "NotFoundError" in
  let registry := createErrorRegistry
    (config_of None None [("404", NotFound); ("OUT_OF_STOCK", class_extends_Error "OutOfStock")]
       [("500", recording_handler "sentry")]) in
  errorRegistry registry.2 !! "404" = Some NotFound ∧
  errorRegistry registry.2 !! "500" = None ∧
  handlerRegistry registry.2 !! "500" = Some (recording_handler "sentry") ∧
  handlerRegistry registry.2 !! "404" = None.
Proof.
  intros NotFound registry.
  destruct (configured_entries_are_registered
              {| config_seekers := None; config_baseError := None;
                 config_errors :=
                   Some [("404", NotFound); ("OUT_OF_STOCK", class_extends_Error "OutOfStock")];
                 config_handlers := Some [("500", recording_handler "sentry")] |}
              [("404", NotFound); ("OUT_OF_STOCK", class_extends_Error "OutOfStock")]
              [("500", recording_handler "sentry")] eq_refl eq_refl)
    as (Hlast & Habsent & Hlast' & Habsent').
  split; [|split; [|split]].
  - apply (Hlast [] "404" NotFound [("OUT_OF_STOCK", class_extends_Error "OutOfStock")]);
      [reflexivity|].
    simpl. intros Hin.
    repeat (apply elem_of_cons in Hin as [Hin|Hin]; [discriminate Hin|]).
    by apply elem_of_nil in Hin.
  - apply Habsent. simpl. intros Hin.
    repeat (apply elem_of_cons in Hin as [Hin|Hin]; [discriminate Hin|]).
    by apply elem_of_nil in Hin.
  - apply (Hlast' [] "500" (recording_handler "sentry") []); [reflexivity|].
    simpl. apply not_elem_of_nil.
  - apply Habsent'. simpl. intros Hin.
    repeat (apply elem_of_cons in Hin as [Hin|Hin]; [discriminate Hin|]).
    by apply elem_of_nil in Hin.
Defined.

(** "should use custom seekers": the default [code] is no longer consulted. *)
Lemma seekers_never_empty_run :
  let config := config_of (Some ["errorCode"]) None [] [] in
  seekers (createErrorRegistry config).1 = ["errorCode"].
Proof.
  intros config.
  destruct (seekers_never_empty config) as [_ Hgiven].
  apply (Hgiven {| config_seekers := Some ["errorCode"]; config_baseError := None;
                   config_errors := Some []; config_handlers := Some [] |});
    [reflexivity|reflexivity|discriminate].
Defined.

(** ** The earlier version, on concrete registries *)

Lemma previous_create_agrees_run :
  let registry := createErrorRegistry
    (config_of None (Some (arrow_factory "ApiError"))
       [("NOT_FOUND", class_extends_Error "NotFoundError")] []) in
  let hit := record_of [("code", VString "NOT_FOUND")] in
  let miss := record_of [("code", VString "OTHER")] in
  Previous.create registry.1 hit (registry.2, @nil string) =
    create registry.1 hit (registry.2, []) ∧
  Previous.create registry.1 miss (registry.2, @nil string) =
    create registry.1 miss (registry.2, []).
Proof.
  intros registry hit miss.
  assert (Hclasses : ∀ key creator,
            errorRegistry registry.2 !! key = Some creator →
            has_prototype (kind creator) = true).
  { intros key creator Hkey.
    change (errorRegistry registry.2)
      with (<["NOT_FOUND" := class_extends_Error "NotFoundError"]>
              (∅ : gmap string ErrorCreator)) in Hkey.
    apply lookup_insert_Some in Hkey as [[_ <-]|[_ Hkey]]; [reflexivity|].
    by rewrite lookup_empty in Hkey. }
  split; by apply previous_create_agrees.
Defined.

(** An arrow-function factory registered with the earlier version: the host
    refuses [new] on it. *)
Lemma previous_create_runs_new_run :
  let registry := createErrorRegistry
    (config_of None None [("FACTORY", arrow_factory "FactoryError")] []) in
  let data := record_of [("code", VString "FACTORY")] in
  Previous.create registry.1 data (registry.2, @nil string) =
    (Throw (TypeError "creator is not a constructor"), (registry.2, [])) ∧
  create registry.1 data (registry.2, @nil string) =
    (onNew (class_extends_Error "FactoryError") data, (registry.2, [])).
Proof.
  intros registry data. split; [|reflexivity].
  apply (previous_create_runs_new registry.1 registry.2 [] data [] "code" ["status"]
           (arrow_factory "FactoryError")).
  - reflexivity.
  - each_seeker.
  - reflexivity.
  - reflexivity.
Defined.

(** * Runs on every host value *)

(** ** The fallback chain *)

(** [{code: null, message: 0}]: the message of the generic Error is ["0"]. *)
Lemma host_create_generic_error_run :
  let data := host_record_of [("code", Host.Null); ("message", Host.Integer (Host.integer 0 I))] in
  Host.create (host_opts None) data (host_store [] [], @nil string) =
    (Normal (Host.new_Error "0"), (host_store [] [], [])) ∧
  Host.error_get (Host.new_Error "0") "message" = Normal (Host.Text "0").
Proof.
  intros data.
  destruct (host_create_generic_error (host_opts None) (host_store [] []) (@nil string)
              data (Host.Integer (Host.integer 0 I)))
    as (_ & Htext & _ & Hmessage & _).
  - each_seeker.
    + exists Host.Null. split; [reflexivity|]. intros Hvalue. discriminate Hvalue.
    + exists Host.Undefined. split; [reflexivity|]. intros Hvalue. discriminate Hvalue.
  - reflexivity.
  - reflexivity.
  - split; [|apply Hmessage]. apply Htext; reflexivity.
Defined.

(** C5 as stated fails: [{message: {"toString": 1}}] on a registry with no
    entries and no [baseError].  No seeker yields a key, and [createError]
    does not return: [new Error(message)] throws the [TypeError] of the
    conversion. *)
Lemma generic_error_message_not_convertible :
  let opts := host_opts None in
  let store := host_store [] [] in
  let data := host_record_of [("message", not_convertible)] in
  ¬ ((∀ seeker value key,
        seeker ∈ Host.seekers opts → Host.data_get data seeker = Normal value →
        Host.not_nullish value = true → Host.String value = Normal key →
        Host.errorRegistry store !! key = None) →
     Host.baseError opts = None →
     ∃ e, (Host.create opts data (store, @nil string)).1 = Normal e ∧
          Host.error_get e "message" = Host.data_get data "message").
Proof.
  intros opts store data Hclaim.
  destruct Hclaim as (e & Hreturns & _).
  - intros seeker value key _ _ _ _. apply lookup_empty.
  - reflexivity.
  - vm_compute in Hreturns. discriminate Hreturns.
Qed.

(** A registered class that returns on the data. *)
Lemma host_create_total_run :
  let TestError := host_class_extends_Error "TestError" in
  let store := host_store [("TEST", TestError)] [] in
  let data := host_record_of [("code", Host.Text "TEST"); ("message", Host.Text "Test")] in
  Host.selected_creator (host_opts None) store data = Normal (Some TestError) ∧
  ∃ name properties,
    Host.create (host_opts None) data (store, @nil string) =
      (Normal (Host.ErrorObject name properties), (store, [])).
Proof.
  intros TestError store data. split; [reflexivity|].
  destruct (host_create_total (host_opts None) store (@nil string) data (Some TestError))
    as (Hreturns & _).
  - reflexivity.
  - intros creator [= <-]. eexists _, _. reflexivity.
  - intros Hnone. discriminate Hnone.
  - exact Hreturns.
Defined.

(** C6 as stated fails: [{code: {"toString": 1}}] on a registry with no
    entries and no [baseError].  No creator is selected, so none throws, and
    [createError] throws: [String(value)] cannot convert the seeker value. *)
Lemma create_throws_on_inconvertible_seeker_value :
  let opts := host_opts None in
  let store := host_store [] [] in
  let data := host_record_of [("code", not_convertible)] in
  ¬ ((∀ key creator, Host.errorRegistry store !! key = Some creator →
        ∃ e, Host.createErrorFromCreator creator data = Normal e) →
     (∀ creator, Host.baseError opts = Some creator →
        ∃ e, Host.createErrorFromCreator creator data = Normal e) →
     ∃ e, (Host.create opts data (store, @nil string)).1 = Normal e).
Proof.
  intros opts store data Hclaim.
  destruct Hclaim as (e & Hreturns).
  - intros key creator Hkey.
    change (Host.errorRegistry store) with (∅ : gmap string Host.ErrorCreator) in Hkey.
    by rewrite lookup_empty in Hkey.
  - intros creator Hbase. discriminate Hbase.
  - vm_compute in Hreturns. discriminate Hreturns.
Qed.

(** ** Handler dispatch *)

(** "should fallback to constructor name when no seeker matches" *)
Lemma host_handleError_constructor_fallback_run :
  let store := host_store [] [("NamedError", host_recording_handler "named")] in
  Host.handleError (host_opts None)
    (Host.ErrorObject (Normal (Host.Text "NamedError"))
       {["message" := Normal (Host.Text "Test")]})
    [Host.Text "ctx"] (store, []) =
    (Normal (), (store, ["named"])).
Proof.
  intros store.
  rewrite (host_handleError_constructor_fallback (host_opts None) store []
             (Normal (Host.Text "NamedError"))
             {["message" := Normal (Host.Text "Test")]} [Host.Text "ctx"]).
  - reflexivity.
  - each_seeker; exists Host.Undefined; (split; [reflexivity|]);
      intros Hvalue; discriminate Hvalue.
Defined.

(** [handleError(null)] rejects: the registry's own [TypeError]. *)
Example handleError_null_rejects :
  (Host.handleError (host_opts None) Host.ErrorNullish []
     (host_store [] [("Error", host_recording_handler "generic")], @nil string)).1 =
  Throw (TypeError "Cannot read properties of null or undefined (reading 'constructor')").
Proof. reflexivity. Qed.

(** ** Number keys *)

(** The number [1e21] is no safe integer; its string form is ["1e+21"], and a
    creator registered under it is not found under the decimal text. *)
Example large_number_key_is_not_its_decimal_text :
  let store := host_store [] [] in
  let registered :=
    (Host.registerError (Host.KeyOtherNumber "1e+21") (host_class_extends_Error "Large")
       (store, @nil string)).2.1 in
  Host.errorRegistry registered !! "1e+21" = Some (host_class_extends_Error "Large") ∧
  Host.errorRegistry registered !! "1000000000000000000000" = None.
Proof. split; reflexivity. Qed.

(** The status [404], registered as a number and read from the data as one. *)
Example number_status_meets_number_key :
  let NotFound := host_class_extends_Error "NotFoundError" in
  let data := host_record_of [("status", Host.Integer (Host.integer 404 I))] in
  (Host.bind (Host.registerError (Host.KeyNumber (Host.integer 404 I)) NotFound)
     (λ _, Host.create (host_opts None) data) (host_store [] [], @nil string)).1 =
  Host.onNew NotFound data.
Proof. reflexivity. Qed.
